(** * TalentScout: the conversation core of [app.py]

    A shallow embedding of the validators, the tech-stack extractor, the
    question generator and the conversation state machine of [app.py],
    followed by the properties proved about them.

    Modelling decisions.
    - A Python [str] is a Rocq [string].  The character-level operations
      ([strip], [lower], [title], the regex classes [\s], [\d], [\w]) are
      the ones CPython applies to code points below 128; the other byte
      values are carried along as unclassified characters (not a space,
      not a digit, not a letter).  The non-ASCII text of the source (the
      emoji of the replies, the error marker of the gateway) is kept as
      its UTF-8 bytes, for which [startswith] is a byte-prefix test.
    - [st.session_state] becomes the record [SessionState], passed into and
      returned from every handler; the dictionary [candidate_info] becomes
      the record [CandidateInfo].  A handler returns the new state and the
      reply, [None] standing for Python's [None].
    - The two things a turn asks of the outside world, the HTTP gateway
      [ask_llama] and the clock [datetime.now()], are the fields of [World].
    - The [except Exception] arm of [handle_conversation] is not modelled:
      no modelled operation raises on a well-typed session. *)

From Stdlib Require Import Bool List Arith Lia NArith ZArith.
From Stdlib Require QArith.
From Stdlib Require Import Ascii String DecimalString.
Import ListNotations.

Open Scope string_scope.

(* ================================================================== *)
(** * Python built-ins used by [app.py] *)

Module Py.

Definition code (c : ascii) : N := N_of_ascii c.

Definition between (lo hi c : ascii) : bool :=
  ((code lo <=? code c) && (code c <=? code hi))%N.

(** [str.isspace] on one character: TAB..CR, FS..US and the blank. *)
Definition isspace (c : ascii) : bool :=
  between "009" "013" c || between "028" " " c.

Definition isdecimal (c : ascii) : bool := between "0" "9" c.
Definition isupper (c : ascii) : bool := between "A" "Z" c.
Definition islower (c : ascii) : bool := between "a" "z" c.
Definition isalpha (c : ascii) : bool := isupper c || islower c.
Definition isalnum (c : ascii) : bool := isalpha c || isdecimal c.

Definition lower_char (c : ascii) : ascii :=
  if isupper c then ascii_of_N (code c + 32) else c.
Definition upper_char (c : ascii) : ascii :=
  if islower c then ascii_of_N (code c - 32) else c.

(** [s.lower()] *)
Fixpoint lower (s : string) : string :=
  match s with
  | EmptyString => EmptyString
  | String c r => String (lower_char c) (lower r)
  end.

(** [s.title()]: a character that follows a cased one is lowered, any
    other one is put in title case. *)
Fixpoint title_from (previous_is_cased : bool) (s : string) : string :=
  match s with
  | EmptyString => EmptyString
  | String c r =>
      String (if previous_is_cased then lower_char c else upper_char c)
             (title_from (isalpha c) r)
  end.
Definition title (s : string) : string := title_from false s.

Fixpoint lstrip (s : string) : string :=
  match s with
  | EmptyString => EmptyString
  | String c r => if isspace c then lstrip r else s
  end.

Fixpoint rstrip (s : string) : string :=
  match s with
  | EmptyString => EmptyString
  | String c r =>
      match rstrip r with
      | EmptyString => if isspace c then EmptyString else String c EmptyString
      | r' => String c r'
      end
  end.

(** [s.strip()] *)
Definition strip (s : string) : string := rstrip (lstrip s).

(** [s.startswith(p)] *)
Definition startswith (s p : string) : bool := String.prefix p s.

(** [needle in hay] *)
Fixpoint contains (needle hay : string) : bool :=
  if String.prefix needle hay then true
  else match hay with
       | EmptyString => false
       | String _ r => contains needle r
       end.

(** [s.replace(old, new)] for a one-character [old]. *)
Fixpoint replace (old : ascii) (new : string) (s : string) : string :=
  match s with
  | EmptyString => EmptyString
  | String c r =>
      if Ascii.eqb c old then new ++ replace old new r
      else String c (replace old new r)
  end.

(** [sep.join(l)] *)
Definition join (sep : string) (l : list string) : string :=
  String.concat sep l.

(** Truth value of a string and of a list. *)
Definition truthy (s : string) : bool :=
  match s with EmptyString => false | _ => true end.
Definition nonempty {A} (l : list A) : bool :=
  match l with [] => false | _ => true end.

Definition digit_value (c : ascii) : Z := Z.of_N (code c - code "0").

(** [int(s)] for a string of decimal digits (the interpreter's guard on
    the number of digits of a literal is not modelled). *)
Fixpoint int_from (acc : Z) (s : string) : Z :=
  match s with
  | EmptyString => acc
  | String c r => int_from (10 * acc + digit_value c) r
  end.
Definition int (s : string) : Z := int_from 0 s.

(** [str(n)] for a natural number. *)
Definition str (n : nat) : string := NilEmpty.string_of_uint (Nat.to_uint n).

(** [list(dict.fromkeys(l))]: the keys of a dictionary filled from [l],
    in insertion order. *)
Definition dict_insert (d : list string) (k : string) : list string :=
  if existsb (String.eqb k) d then d else d ++ [k].
Definition fromkeys (l : list string) : list string :=
  fold_left dict_insert l [].

End Py.

(* ================================================================== *)
(** * The fragment of [re] used by [app.py]

    Positions index the subject text.  [ends r t i] lists, in the order in
    which the backtracking matcher tries them, the positions at which a
    match of [r] that starts at [i] can end.  Repetition is applied to
    character classes only, as in every pattern of the source, and is
    greedy. *)

Module Re.

Local Open Scope list_scope.
Local Open Scope nat_scope.

Definition text := list ascii.

Inductive regex : Type :=
| Chars (cls : ascii -> bool)
| Lit (w : string)
| Cat (r1 r2 : regex)
| Or (r1 r2 : regex)
| Rep (cls : ascii -> bool) (lo : nat) (hi : option nat)
| Bol
| Eol
| WordB.

Definition newline : ascii := "010".

(** Character classes. *)
Definition cls_space : ascii -> bool := Py.isspace.            (* \s *)
Definition cls_digit : ascii -> bool := Py.isdecimal.          (* \d *)
Definition cls_word (c : ascii) : bool :=                      (* \w *)
  Py.isalnum c || Ascii.eqb c "_".
Definition cls_dot (c : ascii) : bool := negb (Ascii.eqb c newline).
Definition one_of (set : string) (c : ascii) : bool :=
  existsb (Ascii.eqb c) (list_ascii_of_string set).

Definition Plus (cls : ascii -> bool) : regex := Rep cls 1 None.
Definition Star (cls : ascii -> bool) : regex := Rep cls 0 None.

(** Length of the longest run of [cls] characters at the head of [t]. *)
Fixpoint run (cls : ascii -> bool) (t : text) : nat :=
  match t with
  | c :: r => if cls c then S (run cls r) else 0
  | [] => 0
  end.

(** [i + lo + n], ..., [i + lo]: the longest repetition first. *)
Fixpoint downto (base n : nat) : list nat :=
  match n with
  | 0 => [base]
  | S m => (base + n) :: downto base m
  end.

Fixpoint is_prefix (w t : text) : bool :=
  match w, t with
  | [], _ => true
  | a :: w', b :: t' => Ascii.eqb a b && is_prefix w' t'
  | _ :: _, [] => false
  end.

Definition word_at (t : text) (i : nat) : bool :=
  match nth_error t i with Some c => cls_word c | None => false end.
Definition word_before (t : text) (i : nat) : bool :=
  match i with 0 => false | S k => word_at t k end.

Fixpoint ends (r : regex) (t : text) (i : nat) : list nat :=
  match r with
  | Chars cls =>
      match nth_error t i with
      | Some c => if cls c then [S i] else []
      | None => []
      end
  | Lit w =>
      let w' := list_ascii_of_string w in
      if is_prefix w' (skipn i t) then [i + List.length w'] else []
  | Cat r1 r2 => flat_map (ends r2 t) (ends r1 t i)
  | Or r1 r2 => ends r1 t i ++ ends r2 t i
  | Rep cls lo hi =>
      let avail := run cls (skipn i t) in
      let top := match hi with Some h => Nat.min h avail | None => avail end in
      if (top <? lo)%nat then [] else downto (i + lo) (top - lo)
  | Bol => if i =? 0 then [i] else []
  | Eol =>
      if (i =? List.length t)
         || ((S i =? List.length t)
             && match nth_error t i with
                | Some c => Ascii.eqb c newline
                | None => false
                end)
      then [i] else []
  | WordB => if xorb (word_before t i) (word_at t i) then [i] else []
  end.

(** [re.match(r, s)]: the end of the match found at position 0. *)
Definition rmatch (r : regex) (s : string) : option nat :=
  hd_error (ends r (list_ascii_of_string s) 0).

(** The first match at or after [i]: its two ends. *)
Fixpoint search_from (r : regex) (t : text) (i fuel : nat) : option (nat * nat) :=
  match fuel with
  | 0 => None
  | S f =>
      match ends r t i with
      | j :: _ => Some (i, j)
      | [] => search_from r t (S i) f
      end
  end.

(** [re.search(r, s)] *)
Definition search (r : regex) (s : string) : option (nat * nat) :=
  let t := list_ascii_of_string s in
  search_from r t 0 (S (List.length t)).

(** [re.finditer] for a pattern that matches no empty string: the
    successive matches, left to right, each search resuming where the
    previous match ended. *)
Fixpoint finditer_from (r : regex) (t : text) (i fuel : nat) : list (nat * nat) :=
  match fuel with
  | 0 => []
  | S f =>
      if (List.length t <? i)%nat then []
      else match ends r t i with
           | j :: _ => (i, j) :: finditer_from r t (if (i <? j)%nat then j else S i) f
           | [] => finditer_from r t (S i) f
           end
  end.

Definition slice (t : text) (i j : nat) : text := firstn (j - i) (skipn i t).

(** [re.findall(r, s)] for a pattern without groups. *)
Definition findall (r : regex) (s : string) : list string :=
  let t := list_ascii_of_string s in
  map (fun m => string_of_list_ascii (slice t (fst m) (snd m)))
      (finditer_from r t 0 (S (List.length t))).

(** [re.sub(r, repl, s)] for a pattern that matches no empty string:
    the text between the matches is kept, each match becomes [repl]. *)
Fixpoint sub_from (ms : list (nat * nat)) (repl : text) (t : text) (i : nat) : text :=
  match ms with
  | [] => skipn i t
  | (a, b) :: ms' => (slice t i a ++ repl ++ sub_from ms' repl t b)%list
  end.

Definition sub (r : regex) (repl : string) (s : string) : string :=
  let t := list_ascii_of_string s in
  string_of_list_ascii
    (sub_from (finditer_from r t 0 (S (List.length t)))
              (list_ascii_of_string repl) t 0).

Definition is_some {A} (o : option A) : bool :=
  match o with Some _ => true | None => false end.

End Re.

(* ================================================================== *)
(** * Validation functions *)

Definition email_pattern : Re.regex :=
  (* ^[a-zA-Z0-9._%+-]+@[a-zA-Z0-9.-]+\.[a-zA-Z]{2,}$ *)
  Re.Cat Re.Bol
 (Re.Cat (Re.Plus (fun c => Py.isalnum c || Re.one_of "._%+-" c))
 (Re.Cat (Re.Lit "@")
 (Re.Cat (Re.Plus (fun c => Py.isalnum c || Re.one_of ".-" c))
 (Re.Cat (Re.Lit ".")
 (Re.Cat (Re.Rep Py.isalpha 2 None)
         Re.Eol))))).

Definition validate_email (email : string) : bool :=
  if negb (Py.truthy email)
     || (String.length email <? 5)%nat || (254 <? String.length email)%nat
  then false
  else Re.is_some (Re.rmatch email_pattern email).

Definition phone_separators : Re.regex :=
  (* [\s\-\(\)] *)
  Re.Chars (fun c => Re.cls_space c || Re.one_of "-()" c).

Definition nonzero_digit : ascii -> bool := Py.between "1" "9".

Definition phone_pattern : Re.regex :=
  (* ^(\+[1-9]\d{1,14}|[1-9]\d{9})$ *)
  Re.Cat Re.Bol
 (Re.Cat (Re.Or (Re.Cat (Re.Lit "+")
                (Re.Cat (Re.Chars nonzero_digit)
                        (Re.Rep Re.cls_digit 1 (Some 14))))
                (Re.Cat (Re.Chars nonzero_digit)
                        (Re.Rep Re.cls_digit 9 (Some 9))))
         Re.Eol).

Definition validate_phone (phone : string) : bool :=
  if negb (Py.truthy phone) then false
  else
    let clean_phone := Re.sub phone_separators "" phone in
    Re.is_some (Re.rmatch phone_pattern clean_phone).

Definition validate_experience (experience : string) : bool :=
  if negb (Py.truthy experience) then false
  else
    let numbers := Re.findall (Re.Plus Re.cls_digit) experience in
    match numbers with
    | first :: _ =>
        let years := Py.int first in
        ((0 <=? years) && (years <=? 50))%Z
    | [] => false
    end.

(* ================================================================== *)
(** * Tech-stack extraction *)

Definition tech_categories : list (string * list string) :=
  [ ("languages", ["python"; "java"; "javascript"; "typescript"; "c++"; "c#";
                   "go"; "rust"; "php"; "ruby"; "swift"; "kotlin"]);
    ("frameworks", ["react"; "angular"; "vue"; "nodejs"; "express"; "django";
                    "flask"; "spring"; "laravel"; "rails"; "fastapi"]);
    ("databases", ["mysql"; "postgresql"; "mongodb"; "redis"; "sqlite";
                   "oracle"; "cassandra"; "elasticsearch"]);
    ("cloud", ["aws"; "azure"; "gcp"; "google cloud"; "docker"; "kubernetes";
               "jenkins"; "git"; "linux"]);
    ("web", ["html"; "css"; "bootstrap"; "tailwind"; "sass"; "jquery";
             "webpack"]);
    ("ml", ["tensorflow"; "pytorch"; "scikit-learn"; "pandas"; "numpy";
            "keras"; "opencv"]) ].

(** The two nested loops of [extract_tech_stack]: every token of the table
    that occurs in [text_lower], title-cased, in table order. *)
Definition found_tech (text_lower : string) : list string :=
  flat_map (fun category =>
              flat_map (fun tech => if Py.contains tech text_lower
                                    then [Py.title tech] else [])
                       (snd category))
           tech_categories.

Definition extract_tech_stack (text : string) : list string :=
  let text_lower := Py.lower text in
  Py.fromkeys (found_tech text_lower).

(* ================================================================== *)
(** * The outside world of one turn *)

Record Message := { role : string; content : string }.

Record World := {
  (** [ask_llama(prompt, max_tokens, temperature, context_messages)]: the
      completion text, or a text that starts with the error marker. *)
  ask_llama : string -> nat -> QArith_base.Q -> list Message -> string;
  (** [datetime.now().isoformat()] *)
  now_isoformat : string
}.

Definition nl : string := String "010" EmptyString.
Definition dq : string := String "034" EmptyString.
Definition lines (l : list string) : string := Py.join nl l.

Definition error_marker : string := "❌".

(* ================================================================== *)
(** * Technical questions *)

Definition interviewer_context : list Message :=
  [ {| role := "system";
       content := "You are an expert technical interviewer. Generate practical, professional-level interview questions." |} ].

Definition question_prompt (tech : string) : string :=
  lines [ "Generate 1 technical interview question for " ++ tech ++ " technology.";
          "";
          "Requirements:";
          "- Assess practical knowledge and problem-solving skills";
          "- Appropriate for professional experience level";
          "- Not too basic or extremely advanced";
          "- Answerable in 2-3 paragraphs";
          "- Focus on real-world scenarios";
          "";
          "Return only the question without additional formatting." ].

Definition generate_technical_questions
    (w : World) (tech_stack : list string) (num_questions : nat) : list string :=
  let selected_techs :=
    if (num_questions <=? List.length tech_stack)%nat
    then firstn num_questions tech_stack else tech_stack in
  fold_left
    (fun questions tech =>
       let question :=
         ask_llama w (question_prompt tech) 200 (QArith_base.Qmake 8 10)
                   interviewer_context in
       if Py.truthy question && negb (Py.startswith question error_marker)
       then
         let clean_question :=
           Py.replace "'" "" (Py.replace "034" "" (Py.strip question)) in
         (questions ++ [("**" ++ tech ++ "**: " ++ clean_question)%string])%list
       else questions)
    selected_techs [].

(* ================================================================== *)
(** * Session state *)

Inductive Stage : Type :=
| Greeting              (* "greeting" *)
| InfoGathering         (* "info_gathering" *)
| GeneratingQuestions   (* "generating_questions" *)
| TechnicalQuestions    (* "technical_questions" *)
| Conclusion.           (* "conclusion" *)

Record CandidateInfo := {
  name : string;
  email : string;
  phone : string;
  experience : string;
  position : string;
  location : string;
  tech_stack : list string
}.

Record Answer := {
  question : string;
  answer : string;
  timestamp : string
}.

(** The keys of [st.session_state] that the conversation handlers read or
    write.  ([messages], [session_id] and [start_time] belong to the page.) *)
Record SessionState := {
  conversation_stage : Stage;
  candidate_info : CandidateInfo;
  technical_questions : list string;
  technical_answers : list Answer;
  current_question_index : nat;
  conversation_ended : bool
}.

Definition set_name (v : string) (i : CandidateInfo) : CandidateInfo :=
  {| name := v; email := email i; phone := phone i; experience := experience i;
     position := position i; location := location i; tech_stack := tech_stack i |}.
Definition set_email (v : string) (i : CandidateInfo) : CandidateInfo :=
  {| name := name i; email := v; phone := phone i; experience := experience i;
     position := position i; location := location i; tech_stack := tech_stack i |}.
Definition set_phone (v : string) (i : CandidateInfo) : CandidateInfo :=
  {| name := name i; email := email i; phone := v; experience := experience i;
     position := position i; location := location i; tech_stack := tech_stack i |}.
Definition set_experience (v : string) (i : CandidateInfo) : CandidateInfo :=
  {| name := name i; email := email i; phone := phone i; experience := v;
     position := position i; location := location i; tech_stack := tech_stack i |}.
Definition set_position (v : string) (i : CandidateInfo) : CandidateInfo :=
  {| name := name i; email := email i; phone := phone i; experience := experience i;
     position := v; location := location i; tech_stack := tech_stack i |}.
Definition set_location (v : string) (i : CandidateInfo) : CandidateInfo :=
  {| name := name i; email := email i; phone := phone i; experience := experience i;
     position := position i; location := v; tech_stack := tech_stack i |}.
Definition set_tech_stack (v : list string) (i : CandidateInfo) : CandidateInfo :=
  {| name := name i; email := email i; phone := phone i; experience := experience i;
     position := position i; location := location i; tech_stack := v |}.

Definition set_stage (v : Stage) (s : SessionState) : SessionState :=
  {| conversation_stage := v; candidate_info := candidate_info s;
     technical_questions := technical_questions s;
     technical_answers := technical_answers s;
     current_question_index := current_question_index s;
     conversation_ended := conversation_ended s |}.
Definition set_info (v : CandidateInfo) (s : SessionState) : SessionState :=
  {| conversation_stage := conversation_stage s; candidate_info := v;
     technical_questions := technical_questions s;
     technical_answers := technical_answers s;
     current_question_index := current_question_index s;
     conversation_ended := conversation_ended s |}.
Definition set_questions (v : list string) (s : SessionState) : SessionState :=
  {| conversation_stage := conversation_stage s; candidate_info := candidate_info s;
     technical_questions := v;
     technical_answers := technical_answers s;
     current_question_index := current_question_index s;
     conversation_ended := conversation_ended s |}.
Definition set_answers (v : list Answer) (s : SessionState) : SessionState :=
  {| conversation_stage := conversation_stage s; candidate_info := candidate_info s;
     technical_questions := technical_questions s;
     technical_answers := v;
     current_question_index := current_question_index s;
     conversation_ended := conversation_ended s |}.
Definition set_index (v : nat) (s : SessionState) : SessionState :=
  {| conversation_stage := conversation_stage s; candidate_info := candidate_info s;
     technical_questions := technical_questions s;
     technical_answers := technical_answers s;
     current_question_index := v;
     conversation_ended := conversation_ended s |}.
Definition set_ended (v : bool) (s : SessionState) : SessionState :=
  {| conversation_stage := conversation_stage s; candidate_info := candidate_info s;
     technical_questions := technical_questions s;
     technical_answers := technical_answers s;
     current_question_index := current_question_index s;
     conversation_ended := v |}.

Definition empty_info : CandidateInfo :=
  {| name := ""; email := ""; phone := ""; experience := ""; position := "";
     location := ""; tech_stack := [] |}.

(** The [defaults] of [initialize_session_state]: the state of a session
    on its first access. *)
Definition initialize_session_state : SessionState :=
  {| conversation_stage := Greeting;
     candidate_info := empty_info;
     technical_questions := [];
     technical_answers := [];
     current_question_index := 0;
     conversation_ended := false |}.

(* ================================================================== *)
(** * Conversation handlers *)

Definition handle_greeting : string :=
  lines [ "🤖 **Welcome to TalentScout AI!**";
          "";
          "I'm your intelligent hiring assistant, designed to streamline the initial screening process for technology positions.";
          "";
          "**What I'll do:**";
          "✅ Gather your essential information  ";
          "✅ Understand your technical expertise  ";
          "✅ Ask relevant technical questions  ";
          "✅ Provide a smooth screening experience  ";
          "";
          "Let's begin! Could you please tell me your **full name**?" ].

Definition name_accepted (info : CandidateInfo) : string :=
  "Nice to meet you, **" ++ name info ++ "**! 📧" ++ nl ++ nl
  ++ "Could you please provide your **email address**?".
Definition name_rejected : string :=
  "Please provide your full name (at least 2 characters):".
Definition email_accepted : string :=
  "📱 Perfect! Now, could you please provide your **phone number**?".
Definition email_rejected : string :=
  "❌ Please provide a valid email address (e.g., name@company.com):".
Definition phone_accepted : string :=
  "💼 Great! How many **years of professional experience** do you have?"
  ++ nl ++ nl ++ "*Please provide a number (e.g., '3 years' or '5')*".
Definition phone_rejected : string :=
  "❌ Please provide a valid phone number:".
Definition experience_accepted : string :=
  "🎯 Excellent! What **position(s)** are you interested in?"
  ++ nl ++ nl
  ++ "*Examples: Software Engineer, Data Scientist, Full Stack Developer*".
Definition experience_rejected : string :=
  "❌ Please provide your years of experience as a number:".
Definition position_accepted : string :=
  "📍 Perfect! Could you please tell me your **current location**?".
Definition position_rejected : string :=
  "Please provide a valid position title (at least 3 characters):".
Definition location_accepted : string :=
  lines [ "🛠️ Finally, let's discuss your technical expertise!";
          "";
          "Please list your **technical skills and tech stack**:";
          "";
          "**Example:** " ++ dq ++ "Python, Django, React, PostgreSQL, AWS, Docker" ++ dq;
          "";
          "*This helps me generate relevant technical questions.*" ].
Definition location_rejected : string :=
  "Please provide your location (at least 2 characters):".
Definition collection_complete (info : CandidateInfo) : string :=
  lines [ "✅ **Information Collection Complete!**";
          "";
          "**Summary:**";
          "- **Name:** " ++ name info;
          "- **Email:** " ++ email info;
          "- **Position:** " ++ position info;
          "- **Experience:** " ++ experience info;
          "- **Tech Stack:** " ++ Py.join ", " (tech_stack info);
          "";
          "🧠 **Generating Technical Questions...please type " ++ dq ++ "continue" ++ dq ++ "**" ].
Definition tech_stack_rejected : string :=
  "❌ I need at least 2 technologies to generate relevant questions. Please provide more technical skills.".

(** The handler reads and writes [candidate_info] through the session; the
    last [else] is the fall-through of the [if]/[elif] chain, where the
    Python function returns [None]. *)
Definition handle_information_gathering
    (st : SessionState) (user_input : string) : SessionState * option string :=
  let info := candidate_info st in
  (* Name collection *)
  if negb (Py.truthy (name info)) then
    if (2 <=? String.length (Py.strip user_input))%nat then
      let info := set_name (Py.title (Py.strip user_input)) info in
      (set_info info st, Some (name_accepted info))
    else (st, Some name_rejected)
  (* Email collection *)
  else if negb (Py.truthy (email info)) then
    if validate_email (Py.strip user_input) then
      let info := set_email (Py.lower (Py.strip user_input)) info in
      (set_info info st, Some email_accepted)
    else (st, Some email_rejected)
  (* Phone collection *)
  else if negb (Py.truthy (phone info)) then
    if validate_phone (Py.strip user_input) then
      let info := set_phone (Py.strip user_input) info in
      (set_info info st, Some phone_accepted)
    else (st, Some phone_rejected)
  (* Experience collection *)
  else if negb (Py.truthy (experience info)) then
    if validate_experience (Py.strip user_input) then
      let info := set_experience (Py.strip user_input) info in
      (set_info info st, Some experience_accepted)
    else (st, Some experience_rejected)
  (* Position collection *)
  else if negb (Py.truthy (position info)) then
    if (3 <=? String.length (Py.strip user_input))%nat then
      let info := set_position (Py.title (Py.strip user_input)) info in
      (set_info info st, Some position_accepted)
    else (st, Some position_rejected)
  (* Location collection *)
  else if negb (Py.truthy (location info)) then
    if (2 <=? String.length (Py.strip user_input))%nat then
      let info := set_location (Py.title (Py.strip user_input)) info in
      (set_info info st, Some location_accepted)
    else (st, Some location_rejected)
  (* Tech stack collection *)
  else if negb (Py.nonempty (tech_stack info)) then
    let found := extract_tech_stack user_input in
    if (2 <=? List.length found)%nat then
      let info := set_tech_stack found info in
      (set_stage GeneratingQuestions (set_info info st),
       Some (collection_complete info))
    else (st, Some tech_stack_rejected)
  else (st, None).

Definition next_question_reply (progress total : nat) (next_question : string) : string :=
  lines [ "✅ **Thank you for your answer!**";
          "";
          "**Question " ++ Py.str progress ++ " of " ++ Py.str total ++ ":**";
          next_question;
          "";
          "*Please provide your answer based on your experience.*" ].
Definition questions_complete : string :=
  lines [ "🎉 **Technical Questions Complete!**";
          "";
          "You've successfully answered all technical questions. Thank you for completing the screening process.";
          "";
          "**Next Steps:**";
          "- Our team will review your responses within 2-3 business days";
          "- You'll receive an email update about the next phase";
          "- If selected, we'll schedule a detailed technical interview";
          "";
          "*You can say 'bye' or 'exit' when ready to end our conversation.*" ].

(** [technical_questions[i]], read only under the guard [i < len(...)]. *)
Definition question_at (st : SessionState) (i : nat) : string :=
  nth i (technical_questions st) "".

Definition handle_technical_questions
    (w : World) (st : SessionState) (user_input : string)
    : SessionState * option string :=
  (* Store current answer *)
  if (current_question_index st <? List.length (technical_questions st))%nat then
    let current_question := question_at st (current_question_index st) in
    let st :=
      set_answers
        (technical_answers st
           ++ [ {| question := current_question;
                   answer := Py.strip user_input;
                   timestamp := now_isoformat w |} ])%list st in
    let st := set_index (current_question_index st + 1) st in
    (* Check if more questions remain *)
    if (current_question_index st <? List.length (technical_questions st))%nat then
      let next_question := question_at st (current_question_index st) in
      let progress := current_question_index st + 1 in
      let total := List.length (technical_questions st) in
      (st, Some (next_question_reply progress total next_question))
    else
      (set_stage Conclusion st, Some questions_complete)
  else (st, None).

(** [\b(w1|w2|...)\b] and the alternation inside it. *)
Definition alternatives (ws : list string) : Re.regex :=
  match ws with
  | [] => Re.Chars (fun _ => false)
  | w :: ws' => fold_left (fun r w' => Re.Or r (Re.Lit w')) ws' (Re.Lit w)
  end.

Definition ending_patterns : list Re.regex :=
  [ (* \b(bye|goodbye|exit|quit|stop|end|finish)\b *)
    Re.Cat Re.WordB
      (Re.Cat (alternatives ["bye"; "goodbye"; "exit"; "quit"; "stop"; "end"; "finish"])
              Re.WordB);
    (* \b(thank you|thanks).*(bye|goodbye|done)\b *)
    Re.Cat Re.WordB
      (Re.Cat (alternatives ["thank you"; "thanks"])
      (Re.Cat (Re.Star Re.cls_dot)
      (Re.Cat (alternatives ["bye"; "goodbye"; "done"])
              Re.WordB)));
    (* \b(done|finished|complete)\b *)
    Re.Cat Re.WordB
      (Re.Cat (alternatives ["done"; "finished"; "complete"]) Re.WordB);
    (* \b(no more|nothing else|that\'s all)\b *)
    Re.Cat Re.WordB
      (Re.Cat (alternatives ["no more"; "nothing else"; "that's all"]) Re.WordB) ].

Definition detect_conversation_ending (user_input : string) : bool :=
  existsb (fun pattern => Re.is_some (Re.search pattern (Py.lower user_input)))
          ending_patterns.

Definition ended_reply : string :=
  "This conversation has ended. Please refresh the page to start a new session.".
Definition closing_reply : string :=
  lines [ "👋 **Thank you for using TalentScout AI!**";
          "";
          "We appreciate your time and interest. Our team will be in touch soon!";
          "";
          "**Have a great day!** 🌟";
          "";
          "*This conversation has ended. Refresh the page to start a new session.*" ].
Definition assessment_ready (questions : list string) : string :=
  lines [ "🧠 **Technical Assessment Ready!**";
          "";
          "**Question 1 of " ++ Py.str (List.length questions) ++ ":**";
          hd "" questions;
          "";
          "*Please provide your answer based on your experience. If you can't answer the question type "
            ++ dq ++ "Continue" ++ dq ++ " *" ].
Definition generation_failed : string :=
  "❌ I encountered an issue generating questions. Please try again.".
Definition conclusion_reply : string :=
  lines [ "Thank you for your question! Our team will provide comprehensive information during the next phase.";
          "";
          "Is there anything else about the screening process, or are you ready to conclude?";
          "";
          "*Say 'bye' or 'exit' when ready to end.*" ].

(** Main conversation handler.  The final [else] of the stage dispatch
    (an unknown stage name) has no counterpart: [Stage] has exactly the
    five names the program ever assigns. *)
Definition handle_conversation
    (w : World) (st : SessionState) (user_input : string)
    : SessionState * option string :=
  if conversation_ended st then (st, Some ended_reply)
  (* Check for exit intent *)
  else if detect_conversation_ending user_input then
    (set_ended true st, Some closing_reply)
  (* Handle conversation stages *)
  else
    match conversation_stage st with
    | Greeting =>
        handle_information_gathering (set_stage InfoGathering st) user_input
    | InfoGathering =>
        handle_information_gathering st user_input
    | GeneratingQuestions =>
        let stack := tech_stack (candidate_info st) in
        let questions :=
          generate_technical_questions w stack (Nat.min 3 (List.length stack)) in
        if Py.nonempty questions
           && negb (existsb (fun q => Py.startswith q error_marker) questions)
        then
          (set_stage TechnicalQuestions (set_index 0 (set_questions questions st)),
           Some (assessment_ready questions))
        else (st, Some generation_failed)
    | TechnicalQuestions =>
        handle_technical_questions w st user_input
    | Conclusion => (st, Some conclusion_reply)
    end.

(** One turn is what the world answers during it and what the user types;
    [run] plays a list of turns through [handle_conversation]. *)
Definition Turn : Type := World * string.

Definition step (st : SessionState) (t : Turn) : SessionState :=
  fst (handle_conversation (fst t) st (snd t)).

Definition run (st : SessionState) (turns : list Turn) : SessionState :=
  fold_left step turns st.

(* ================================================================== *)
(** * Vocabulary of the properties *)

(** ** What a pattern matches

    [matches r t i j]: the pattern [r] matches the characters of [t] from
    position [i] up to position [j].  This is the declarative reading of
    the patterns; [Re.ends] is shown below to enumerate exactly these [j]. *)
Fixpoint matches (r : Re.regex) (t : Re.text) (i j : nat) : Prop :=
  match r with
  | Re.Chars cls =>
      (exists c, nth_error t i = Some c /\ cls c = true) /\ j = S i
  | Re.Lit w =>
      Re.is_prefix (list_ascii_of_string w) (skipn i t) = true
      /\ j = i + List.length (list_ascii_of_string w)
  | Re.Cat r1 r2 => exists k, matches r1 t i k /\ matches r2 t k j
  | Re.Or r1 r2 => matches r1 t i j \/ matches r2 t i j
  | Re.Rep cls lo hi =>
      i + lo <= j /\ j <= i + Re.run cls (skipn i t)
      /\ match hi with Some h => j <= i + h | None => True end
  | Re.Bol => i = 0 /\ j = i
  | Re.Eol =>
      (i = List.length t
       \/ (S i = List.length t /\ nth_error t i = Some Re.newline))
      /\ j = i
  | Re.WordB => Re.word_before t i <> Re.word_at t i /\ j = i
  end.

(** ** Phone numbers, in the words of the specification *)








(** ** Years of experience, in the words of the specification *)






(** ** The technology table as one list *)

Definition table_tokens : list string := flat_map snd tech_categories.

(** ** Order of the stages and of the fields *)

Definition stage_rank (s : Stage) : nat :=
  match s with
  | Greeting => 0
  | InfoGathering => 1
  | GeneratingQuestions => 2
  | TechnicalQuestions => 3
  | Conclusion => 4
  end.

(** Which fields are set, in the order in which they are collected. *)
Definition filled (i : CandidateInfo) : list bool :=
  [ Py.truthy (name i); Py.truthy (email i); Py.truthy (phone i);
    Py.truthy (experience i); Py.truthy (position i);
    Py.truthy (location i); Py.nonempty (tech_stack i) ].

(** No [true] after a [false]. *)
Fixpoint in_order (l : list bool) : bool :=
  match l with
  | [] => true
  | true :: r => in_order r
  | false :: r => forallb negb r
  end.

(** Every field that is set in [i] has the same value in [i']. *)
Definition keeps (i i' : CandidateInfo) : Prop :=
  (Py.truthy (name i) = true -> name i' = name i)
  /\ (Py.truthy (email i) = true -> email i' = email i)
  /\ (Py.truthy (phone i) = true -> phone i' = phone i)
  /\ (Py.truthy (experience i) = true -> experience i' = experience i)
  /\ (Py.truthy (position i) = true -> position i' = position i)
  /\ (Py.truthy (location i) = true -> location i' = location i)
  /\ (Py.nonempty (tech_stack i) = true -> tech_stack i' = tech_stack i).

(** ** Answer turns *)

Definition answer_turn (st : SessionState) (t : Turn) : SessionState :=
  fst (handle_technical_questions (fst t) st (snd t)).

Definition answer_turns (st : SessionState) (turns : list Turn) : SessionState :=
  fold_left answer_turn turns st.

(** The record that answering question [i] in turn [t] appends. *)
Definition recorded (questions : list string) (i : nat) (t : Turn) : Answer :=
  {| question := nth i questions "";
     answer := Py.strip (snd t);
     timestamp := now_isoformat (fst t) |}.

Fixpoint recorded_from (questions : list string) (i : nat) (turns : list Turn)
    : list Answer :=
  match turns with
  | [] => []
  | t :: r => recorded questions i t :: recorded_from questions (S i) r
  end.

(** ** Scenarios *)

Definition play (w : World) (st : SessionState) (inputs : list string) : SessionState :=
  run st (map (fun i => (w, i)) inputs).

Definition scenario_inputs : list string :=
  [ "Jane Doe"; "jane@co.io"; "+14155550100"; "4 years"; "Backend Engineer";
    "Austin"; "Python, Django, PostgreSQL" ].

Definition all_set (i : CandidateInfo) : bool := forallb (fun b => b) (filled i).

(** The scenario played from a fresh session put in [info_gathering]:
    every field set, the stage [generating_questions], the stored list
    [stack]. *)
Definition scenario_outcome (w : World) (stack : list string) : Prop :=
  let st := play w (set_stage InfoGathering initialize_session_state)
                 scenario_inputs in
  all_set (candidate_info st) = true
  /\ conversation_stage st = GeneratingQuestions
  /\ tech_stack (candidate_info st) = stack.

(** What the gateway answers to the request made for [tech]. *)
Definition gateway_reply (w : World) (tech : string) : string :=
  ask_llama w (question_prompt tech) 200 (QArith_base.Qmake 8 10)
            interviewer_context.

Definition rate_limited : string :=
  "❌ Rate limit exceeded. Please wait and try again.".

(** A gateway that is out of reach. *)
Definition offline_world : World :=
  {| ask_llama := fun _ _ _ _ =>
       "❌ Connection error. Please check your internet connection.";
     now_isoformat := "2024-05-01T10:00:00" |}.

Definition sample_question : string := "How would you profile a slow service?".

(** A gateway that answers every request but the one about Django, for
    which it reports the rate limit. *)
Definition flaky_world : World :=
  {| ask_llama := fun prompt _ _ _ =>
       if Py.contains "for Django technology" prompt then rate_limited
       else sample_question;
     now_isoformat := "2024-05-01T10:00:00" |}.

Definition partial_batch : list string :=
  [ "**Python**: " ++ sample_question; "**Go**: " ++ sample_question ].

(** The session once the scenario has been played from the greeting: it
    waits in [generating_questions]. *)
Definition awaiting_questions : SessionState :=
  play offline_world initialize_session_state scenario_inputs.

(** A session in [technical_questions] with two questions to answer. *)
Definition two_questions : SessionState :=
  {| conversation_stage := TechnicalQuestions;
     candidate_info := candidate_info awaiting_questions;
     technical_questions := ["**Python**: first?"; "**Go**: second?"];
     technical_answers := [];
     current_question_index := 0;
     conversation_ended := false |}.

(* ================================================================== *)
(** * The gateway call

    [requests.post] is the outside world: an [Outcome] says which arm of
    [ask_llama] it leads to.  A reply with status 200 carries either the
    text of [choices[0].message.content] or, when the body has no such
    entry, the exception that reading it raises. *)

Module Gateway.

Inductive Body : Type :=
| Completion (content : string)
| Malformed (error : string).

Inductive Outcome : Type :=
| Status (status_code : nat) (body : Body)
| Timeout
| ConnectionError
| OtherError (error : string).

Record Payload := {
  model : string;
  max_tokens : nat;
  temperature : QArith_base.Q;
  messages : list Message
}.

Definition MODEL_NAME : string := "meta-llama/Llama-3-8b-chat-hf".

Definition configured (TOGETHER_API_KEY : option string) : bool :=
  match TOGETHER_API_KEY with
  | Some key => Py.truthy key
  | None => false
  end.

(** The call went through and brought a completion. *)
Definition delivered (o : Outcome) : bool :=
  match o with
  | Status 200 (Completion _) => true
  | _ => false
  end.

(** [ask_llama(prompt, max_tokens, temperature, context_messages)], with
    the environment's [TOGETHER_API_KEY] ([None] when it is not set) and
    the behaviour of the HTTP call as parameters. *)
Definition ask_llama
    (TOGETHER_API_KEY : option string) (post : Payload -> Outcome)
    (prompt : string) (max_tokens : nat) (temperature : QArith_base.Q)
    (context_messages : list Message) : string :=
  if negb (configured TOGETHER_API_KEY)
  then "❌ API key not configured. Please set TOGETHER_API_KEY in your .env file."
  else
    let messages :=
      (context_messages ++ [ {| role := "user"; content := prompt |} ])%list in
    let payload :=
      {| model := MODEL_NAME; max_tokens := max_tokens;
         temperature := temperature; messages := messages |} in
    match post payload with
    | Status status_code body =>
        if (status_code =? 200)%nat then
          match body with
          | Completion content => content
          | Malformed error => "❌ Unexpected error: " ++ error
          end
        else if (status_code =? 401)%nat then
          "❌ Authentication failed. Please check your API key."
        else if (status_code =? 429)%nat then
          "❌ Rate limit exceeded. Please wait and try again."
        else "❌ API Error: " ++ Py.str status_code
    | Timeout => "❌ Request timed out. Please try again."
    | ConnectionError =>
        "❌ Connection error. Please check your internet connection."
    | OtherError error => "❌ Unexpected error: " ++ error
    end.

End Gateway.

(** The world of a turn served by [Gateway.ask_llama]. *)
Definition served_by
    (key : option string) (post : Gateway.Payload -> Gateway.Outcome)
    (now : string) : World :=
  {| ask_llama := Gateway.ask_llama key post; now_isoformat := now |}.

(* ================================================================== *)
(** * The page: sidebar counters and the chat transcript *)

(** [filled_fields] of [render_sidebar]. *)
Definition filled_fields (info : CandidateInfo) : nat :=
  List.length
    (filter Py.truthy
            [ name info; email info; phone info; experience info;
              position info; location info ])
  + (if Py.nonempty (tech_stack info) then 1 else 0).

Definition total_fields : nat := 7.

(** [answered_questions] and [total_questions] of [render_sidebar]. *)
Definition answered_questions (st : SessionState) : nat :=
  List.length (technical_answers st).
Definition total_questions (st : SessionState) : nat :=
  List.length (technical_questions st).

(** One entry of [st.session_state.messages]; the content is the reply of
    the handler, which can be [None]. *)
Record ChatMessage := {
  chat_role : string;
  chat_content : option string
}.

(** The session store of one browser session: the transcript and the
    keys of [SessionState]. *)
Record Page := {
  transcript : list ChatMessage;
  session : SessionState
}.

Definition first_access : Page :=
  {| transcript := []; session := initialize_session_state |}.

(** One run of [main]: [store] is [None] on the first access of the
    session, [user_input] is what [st.chat_input] returns.  The rerun that
    ends an answered turn is a further run without input. *)
Definition main (w : World) (store : option Page) (user_input : option string)
    : Page :=
  (* initialize_session_state() *)
  let page := match store with Some page => page | None => first_access end in
  (* Initialize conversation *)
  let page :=
    if negb (Py.nonempty (transcript page)) then
      {| transcript :=
           (transcript page
              ++ [ {| chat_role := "assistant";
                      chat_content := Some handle_greeting |} ])%list;
         session := session page |}
    else page in
  (* User input *)
  if negb (conversation_ended (session page)) then
    match user_input with
    | Some text =>
        if Py.truthy text then
          let asked :=
            (transcript page
               ++ [ {| chat_role := "user"; chat_content := Some text |} ])%list in
          let result := handle_conversation w (session page) text in
          {| transcript :=
               (asked ++ [ {| chat_role := "assistant";
                              chat_content := snd result |} ])%list;
             session := fst result |}
        else page
    | None => page
    end
  else page.

(** A visit is one run of the page: the world during it and the input. *)
Definition Visit : Type := World * option string.

Definition browse (store : option Page) (visits : list Visit) : option Page :=
  fold_left (fun store v => Some (main (fst v) store (snd v))) visits store.

(** The turns that the visits submit to the conversation handler. *)
Definition submitted (visits : list Visit) : list Turn :=
  flat_map (fun v => match snd v with
                     | Some text => if Py.truthy text then [(fst v, text)] else []
                     | None => []
                     end) visits.

(* ================================================================== *)
(** * Sessions that a conversation can reach *)

(** Nothing has been generated or answered yet. *)
Definition idle (st : SessionState) : Prop :=
  technical_questions st = [] /\ technical_answers st = []
  /\ current_question_index st = 0.

(** The record is complete: all seven fields, at least two technologies,
    none of them twice. *)
Definition complete (info : CandidateInfo) : Prop :=
  all_set info = true /\ 2 <= List.length (tech_stack info)
  /\ NoDup (tech_stack info).

(** The assessment is under way: between one and three questions, no more
    than there are technologies, and the answers recorded so far are those
    to the questions before the cursor. *)
Definition asked (st : SessionState) : Prop :=
  1 <= List.length (technical_questions st) <= 3
  /\ List.length (technical_questions st)
     <= List.length (tech_stack (candidate_info st))
  /\ current_question_index st <= List.length (technical_questions st)
  /\ map question (technical_answers st)
     = firstn (current_question_index st) (technical_questions st).

Definition well_formed (st : SessionState) : Prop :=
  match conversation_stage st with
  | Greeting => candidate_info st = empty_info /\ idle st
  | InfoGathering =>
      in_order (filled (candidate_info st)) = true
      /\ tech_stack (candidate_info st) = [] /\ idle st
  | GeneratingQuestions => complete (candidate_info st) /\ idle st
  | TechnicalQuestions =>
      complete (candidate_info st) /\ asked st
      /\ current_question_index st < List.length (technical_questions st)
  | Conclusion =>
      complete (candidate_info st) /\ asked st
      /\ current_question_index st = List.length (technical_questions st)
  end.

(* ================================================================== *)
(** * Vocabulary of the further properties *)

(** The call for [tech] brought a text that the generator keeps. *)
Definition kept (w : World) (tech : string) : bool :=
  Py.truthy (gateway_reply w tech)
  && negb (Py.startswith (gateway_reply w tech) error_marker).

(** The question made of the reply to the call for [tech]. *)
Definition labelled (w : World) (tech : string) : string :=
  "**" ++ tech ++ "**: "
  ++ Py.replace "'" "" (Py.replace "034" "" (Py.strip (gateway_reply w tech))).



(** The character classes of the e-mail pattern. *)
Definition local_char (c : ascii) : bool := Py.isalnum c || Re.one_of "._%+-" c.
Definition domain_char (c : ascii) : bool := Py.isalnum c || Re.one_of ".-" c.

(** [local@domain.tld], possibly followed by one line feed. *)
Definition email_shape (t : list ascii) : Prop :=
  exists local domain tld tail,
    t = (local ++ "@"%char :: domain ++ "."%char :: tld ++ tail)%list
    /\ local <> [] /\ forallb local_char local = true
    /\ domain <> [] /\ forallb domain_char domain = true
    /\ 2 <= List.length tld /\ forallb Py.isalpha tld = true
    /\ (tail = [] \/ tail = [Re.newline]).

(** Every turn of [turns] is served by the gateway [key], [post]. *)
Definition served_throughout
    (key : option string) (post : Gateway.Payload -> Gateway.Outcome)
    (turns : list Turn) : Prop :=
  Forall (fun t => exists now, fst t = served_by key post now) turns.

(** The messages that the page appends while [turns] are submitted to a
    session in state [st]: the input and the reply of each turn, up to the
    turn that ends the conversation. *)
Fixpoint dialogue (st : SessionState) (turns : list Turn) : list ChatMessage :=
  match turns with
  | [] => []
  | t :: rest =>
      if conversation_ended st then []
      else
        let result := handle_conversation (fst t) st (snd t) in
        {| chat_role := "user"; chat_content := Some (snd t) |}
        :: {| chat_role := "assistant"; chat_content := snd result |}
        :: dialogue (fst result) rest
  end.

Definition greeting_message : ChatMessage :=
  {| chat_role := "assistant"; chat_content := Some handle_greeting |}.


(* ================================================================== *)
(** * The matcher enumerates the matches *)

Section ReFacts.
Local Open Scope nat_scope.
Local Open Scope list_scope.

Lemma In_downto (b n j : nat) : In j (Re.downto b n) <-> b <= j <= b + n.
Proof.
  induction n as [|n IH]; simpl.
  - split; [intros [<-|[]]; lia | intros; left; lia].
  - rewrite IH. split; [intros [<-|H]; lia | intros H].
    destruct (Nat.eq_dec j (b + S n)) as [->|Hne]; [now left | right; lia].
Qed.

Lemma ends_spec (r : Re.regex) :
  forall t i j, In j (Re.ends r t i) <-> matches r t i j.
Proof.
  induction r as [cls|w|r1 IH1 r2 IH2|r1 IH1 r2 IH2|cls lo hi| | |];
    intros t i j; cbn [Re.ends matches].
  - destruct (nth_error t i) as [c|]; [destruct (cls c) eqn:Hc|]; simpl.
    + split; [intros [<-|[]]; split; [exists c|]; auto | intros [_ ->]; now left].
    + split; [intros [] | intros [[c' [Heq Hc']] _]; congruence].
    + split; [intros [] | intros [[c' [Heq _]] _]; discriminate].
  - destruct (Re.is_prefix _ _); simpl.
    + split; [intros [<-|[]]; auto | intros [_ ->]; now left].
    + split; [intros [] | intros [H _]; discriminate].
  - rewrite in_flat_map. split; intros [k [H1 H2]]; exists k.
    + now rewrite <- IH1, <- IH2.
    + now rewrite IH1, IH2.
  - now rewrite in_app_iff, IH1, IH2.
  - set (avail := Re.run cls (skipn i t)).
    destruct hi as [h|].
    + destruct (Nat.ltb_spec (Nat.min h avail) lo); simpl.
      * split; [intros [] | lia].
      * rewrite In_downto. lia.
    + destruct (Nat.ltb_spec avail lo); simpl.
      * split; [intros [] | lia].
      * rewrite In_downto. lia.
  - destruct (Nat.eqb_spec i 0); simpl.
    + split; [intros [<-|[]]; auto | intros [_ ->]; now left].
    + split; [intros [] | intros [H _]; contradiction].
  - destruct (Nat.eqb_spec i (List.length t)) as [He|He]; cbn [orb andb In].
    + split; [intros [<-|[]]; auto | intros [_ ->]; now left].
    + destruct (Nat.eqb_spec (S i) (List.length t)) as [Hs|Hs]; cbn [orb andb In].
      * destruct (nth_error t i) as [c|]; cbn [orb andb In].
        -- destruct (Ascii.eqb_spec c Re.newline) as [->|Hc]; cbn [orb andb In].
           ++ split; [intros [<-|[]]; auto | intros [_ ->]; now left].
           ++ split; [intros [] | intros [[H|[_ H]] _]; congruence].
        -- split; [intros [] | intros [[H|[_ H]] _]; congruence].
      * split; [intros [] | intros [[H|[H _]] _]; congruence].
  - destruct (Re.word_before t i), (Re.word_at t i); simpl;
      (split; [intros [<-|[]]; split; [discriminate|reflexivity] | intros [_ ->]; now left])
      || (split; [intros [] | intros [H _]; congruence]).
Qed.

Lemma rmatch_spec (r : Re.regex) (s : string) :
  Re.is_some (Re.rmatch r s) = true
  <-> exists j, matches r (list_ascii_of_string s) 0 j.
Proof.
  unfold Re.rmatch.
  destruct (Re.ends r (list_ascii_of_string s) 0) as [|j l] eqn:He; simpl.
  - split; [discriminate | intros [j Hj]].
    apply ends_spec in Hj. rewrite He in Hj. destruct Hj.
  - split; [intros _; exists j | reflexivity].
    apply ends_spec. rewrite He. now left.
Qed.
End ReFacts.

(* ================================================================== *)
(** * Positions in a text, and substitution of a character class *)

Section Positions.
Local Open Scope nat_scope.
Local Open Scope list_scope.
Context {A : Type}.

Lemma skipn_cons_nth (t : list A) (k : nat) (c : A) :
  nth_error t k = Some c -> skipn k t = c :: skipn (S k) t.
Proof.
  revert k; induction t as [|a t IH]; intros [|k] H; simpl in *;
    try discriminate.
  - now injection H as ->.
  - now apply IH.
Qed.




End Positions.

Section Sub.
Local Open Scope nat_scope.
Local Open Scope list_scope.



End Sub.

(* ================================================================== *)
(** * Phone numbers *)

Ltac each_ascii c := destruct c as [[] [] [] [] [] [] [] []].

Section Chars.


End Chars.

Section Runs.
Local Open Scope nat_scope.
Variable cls : ascii -> bool.

End Runs.

Section Phone.
Local Open Scope nat_scope.




End Phone.

(* ================================================================== *)
(** * Years of experience *)

Section Experience.
Local Open Scope nat_scope.
Local Open Scope list_scope.




End Experience.

(* ================================================================== *)
(** * Dictionaries, extraction, truth values *)

Section Dict.
Local Open Scope list_scope.

Lemma dict_insert_new (d : list string) (k : string) :
  ~ In k d -> Py.dict_insert d k = d ++ [k].
Proof.
  intros H. unfold Py.dict_insert.
  destruct (existsb (String.eqb k) d) eqn:He; [|reflexivity].
  apply existsb_exists in He as [x [Hx Heq]].
  apply String.eqb_eq in Heq as <-. contradiction.
Qed.

Lemma dict_insert_NoDup (d : list string) (k : string) :
  NoDup d -> NoDup (Py.dict_insert d k).
Proof.
  intros H. unfold Py.dict_insert.
  destruct (existsb (String.eqb k) d) eqn:He; [assumption|].
  apply NoDup_app; [assumption | constructor; [intros []|constructor] |].
  intros x Hx [<-|[]].
  assert (existsb (String.eqb k) d = true) as Ht; [|congruence].
  apply existsb_exists. exists k. split; [assumption | apply String.eqb_refl].
Qed.

Lemma fold_insert_NoDup (l d : list string) :
  NoDup d -> NoDup (fold_left Py.dict_insert l d).
Proof.
  revert d; induction l as [|k l IH]; intros d H; simpl; [assumption|].
  apply IH, dict_insert_NoDup, H.
Qed.

Lemma fromkeys_NoDup (l : list string) : NoDup (Py.fromkeys l).
Proof. apply fold_insert_NoDup. constructor. Qed.

Lemma fold_insert_fresh (l d : list string) :
  NoDup (d ++ l) -> fold_left Py.dict_insert l d = d ++ l.
Proof.
  revert d; induction l as [|k l IH]; intros d H; simpl.
  - now rewrite app_nil_r.
  - rewrite dict_insert_new.
    + rewrite IH; rewrite <- app_assoc; [reflexivity | exact H].
    + apply NoDup_remove_2 in H. intros Hin. apply H.
      apply in_or_app. now left.
Qed.

Lemma fromkeys_fresh (l : list string) : NoDup l -> Py.fromkeys l = l.
Proof. intros H. unfold Py.fromkeys. now rewrite fold_insert_fresh. Qed.
End Dict.

Section Extraction.
Local Open Scope list_scope.

(** Dropping tokens from a list whose titles are distinct leaves the
    titles distinct. *)
Lemma kept_titles_distinct (keep : string -> bool) (tokens : list string) :
  NoDup (map Py.title tokens) -> NoDup (map Py.title (filter keep tokens)).
Proof.
  intros Hall. induction tokens as [|tok rest IH]; cbn [filter map] in *.
  - constructor.
  - apply NoDup_cons_iff in Hall as [Hfresh Hrest].
    destruct (keep tok); cbn [map]; [|now apply IH].
    constructor; [|now apply IH].
    intros Hin. apply Hfresh.
    apply in_map_iff in Hin as [other [Htitle Hin]].
    apply in_map_iff. exists other. split; [exact Htitle|].
    apply filter_In in Hin. tauto.
Qed.

Lemma found_tech_filter (text_lower : string) :
  found_tech text_lower
  = map Py.title
        (filter (fun tech => Py.contains tech text_lower) table_tokens).
Proof.
  unfold found_tech, table_tokens.
  induction tech_categories as [|category rest IH]; simpl; [reflexivity|].
  rewrite filter_app, map_app, <- IH. f_equal.
  induction (snd category) as [|tech techs IHt]; simpl; [reflexivity|].
  destruct (Py.contains tech text_lower); simpl; now rewrite IHt.
Qed.

Lemma table_titles_NoDup : NoDup (map Py.title table_tokens).
Proof.
  replace (map Py.title table_tokens)
    with (Py.fromkeys (map Py.title table_tokens)) by (vm_compute; reflexivity).
  apply fromkeys_NoDup.
Qed.

Lemma extract_tech_stack_filter (text : string) :
  extract_tech_stack text
  = map Py.title
        (filter (fun tech => Py.contains tech (Py.lower text)) table_tokens).
Proof.
  unfold extract_tech_stack. rewrite found_tech_filter.
  apply fromkeys_fresh, kept_titles_distinct, table_titles_NoDup.
Qed.

Lemma lower_char_idem (c : ascii) :
  Py.lower_char (Py.lower_char c) = Py.lower_char c.
Proof. each_ascii c; reflexivity. Qed.

Lemma lower_idem (s : string) : Py.lower (Py.lower s) = Py.lower s.
Proof.
  induction s as [|c s IH]; simpl; [reflexivity|].
  now rewrite lower_char_idem, IH.
Qed.
End Extraction.

Section Truthy.
Local Open Scope nat_scope.

Lemma title_from_length (s : string) :
  forall b, String.length (Py.title_from b s) = String.length s.
Proof. induction s as [|c s IH]; intros b; simpl; [reflexivity | now rewrite IH]. Qed.

Lemma truthy_length (s : string) : Py.truthy s = true <-> 0 < String.length s.
Proof. destruct s; simpl; split; (discriminate || lia || reflexivity). Qed.

Lemma title_truthy (n : nat) (s : string) :
  (S n <=? String.length s) = true -> Py.truthy (Py.title s) = true.
Proof.
  intros H. apply Nat.leb_le in H. apply truthy_length.
  unfold Py.title. rewrite title_from_length. lia.
Qed.

Lemma validate_email_truthy (s : string) :
  validate_email s = true -> Py.truthy (Py.lower s) = true.
Proof. destruct s; [discriminate | reflexivity]. Qed.

Lemma validate_phone_truthy (s : string) :
  validate_phone s = true -> Py.truthy s = true.
Proof. destruct s; [discriminate | reflexivity]. Qed.

Lemma validate_experience_truthy (s : string) :
  validate_experience s = true -> Py.truthy s = true.
Proof. destruct s; [discriminate | reflexivity]. Qed.

Lemma two_nonempty {A} (l : list A) :
  (2 <=? List.length l) = true -> Py.nonempty l = true.
Proof. destruct l; [discriminate | reflexivity]. Qed.
End Truthy.

(* ================================================================== *)
(** * The handlers *)

Ltac split_session st :=
  let stage := fresh "stage" in
  let n := fresh "n" in let e := fresh "e" in let p := fresh "p" in
  let x := fresh "x" in let po := fresh "po" in let l := fresh "l" in
  let ts := fresh "ts" in
  destruct st as [stage [n e p x po l ts] ? ? ? ?].

Ltac session_simpl :=
  cbn [fst snd conversation_stage candidate_info technical_questions
       technical_answers current_question_index conversation_ended
       name email phone experience position location tech_stack
       set_name set_email set_phone set_experience set_position set_location
       set_tech_stack set_stage set_info set_questions set_answers set_index
       set_ended] in *.

Ltac branches :=
  repeat match goal with
         | |- context [if ?c then _ else _] => destruct c eqn:?
         end.

Ltac stored_values :=
  repeat match goal with
         | H : (_ <=? String.length _)%nat = true |- _ =>
             apply title_truthy in H
         | H : validate_email _ = true |- _ => apply validate_email_truthy in H
         | H : validate_phone _ = true |- _ => apply validate_phone_truthy in H
         | H : validate_experience _ = true |- _ =>
             apply validate_experience_truthy in H
         | H : (2 <=? List.length _)%nat = true |- _ => apply two_nonempty in H
         | H : negb _ = true |- _ => apply negb_true_iff in H
         | H : negb _ = false |- _ => apply negb_false_iff in H
         end.

Section InformationGathering.

Lemma gathering_in_order (st : SessionState) (user_input : string) :
  in_order (filled (candidate_info st)) = true ->
  in_order (filled (candidate_info
                      (fst (handle_information_gathering st user_input)))) = true.
Proof.
  split_session st. unfold handle_information_gathering. session_simpl.
  branches; session_simpl; unfold filled; session_simpl; stored_values;
    intros H; try exact H;
    repeat match goal with
           | E : Py.truthy _ = _ |- _ => rewrite E in *
           | E : Py.nonempty _ = _ |- _ => rewrite E in *
           end;
    cbn [in_order forallb negb andb] in *;
    repeat match goal with
           | E : _ && _ = true |- _ => apply andb_true_iff in E as [? ?]
           | E : negb _ = true |- _ => apply negb_true_iff in E
           end;
    repeat match goal with
           | E : Py.truthy _ = _ |- _ => rewrite E in *
           | E : Py.nonempty _ = _ |- _ => rewrite E in *
           end;
    try reflexivity; try discriminate.
Qed.

Lemma gathering_keeps (st : SessionState) (user_input : string) :
  keeps (candidate_info st)
        (candidate_info (fst (handle_information_gathering st user_input))).
Proof.
  split_session st. unfold handle_information_gathering, keeps. session_simpl.
  branches; session_simpl; stored_values;
    repeat split; intros; try reflexivity; congruence.
Qed.

Lemma gathering_stage (st : SessionState) (user_input : string) :
  let st' := fst (handle_information_gathering st user_input) in
  conversation_stage st' = conversation_stage st
  \/ conversation_stage st' = GeneratingQuestions.
Proof.
  split_session st. unfold handle_information_gathering. session_simpl.
  branches; session_simpl; auto.
Qed.

End InformationGathering.

Section TechnicalQuestions.
Local Open Scope nat_scope.

Lemma answering_info (w : World) (st : SessionState) (user_input : string) :
  candidate_info (fst (handle_technical_questions w st user_input))
  = candidate_info st.
Proof.
  unfold handle_technical_questions. session_simpl. branches; reflexivity.
Qed.

Lemma answering_stage (w : World) (st : SessionState) (user_input : string) :
  let st' := fst (handle_technical_questions w st user_input) in
  conversation_stage st' = conversation_stage st
  \/ conversation_stage st' = Conclusion.
Proof.
  unfold handle_technical_questions. session_simpl. branches; auto.
Qed.

Lemma answer_turn_spec (st : SessionState) (t : Turn) :
  current_question_index st < List.length (technical_questions st) ->
  let st' := answer_turn st t in
  technical_questions st' = technical_questions st
  /\ technical_answers st'
     = (technical_answers st
          ++ [recorded (technical_questions st) (current_question_index st) t])%list
  /\ current_question_index st' = S (current_question_index st)
  /\ conversation_stage st'
     = (if S (current_question_index st) <? List.length (technical_questions st)
        then conversation_stage st else Conclusion)
  /\ candidate_info st' = candidate_info st
  /\ conversation_ended st' = conversation_ended st.
Proof.
  intros Hlt. unfold answer_turn, handle_technical_questions.
  apply Nat.ltb_lt in Hlt. rewrite Hlt. session_simpl.
  rewrite Nat.add_1_r.
  destruct (S (current_question_index st) <? _); session_simpl;
    repeat split; reflexivity.
Qed.

Lemma recorded_from_length (qs : list string) (turns : list Turn) :
  forall i, List.length (recorded_from qs i turns) = List.length turns.
Proof. induction turns as [|t r IH]; intros i; simpl; [reflexivity | now rewrite IH]. Qed.

Lemma answer_turns_spec (turns : list Turn) :
  forall st,
    current_question_index st + List.length turns
      <= List.length (technical_questions st) ->
    let st' := answer_turns st turns in
    technical_questions st' = technical_questions st
    /\ technical_answers st'
       = (technical_answers st
            ++ recorded_from (technical_questions st)
                             (current_question_index st) turns)%list
    /\ current_question_index st'
       = current_question_index st + List.length turns
    /\ conversation_stage st'
       = (if (1 <=? List.length turns)
             && (current_question_index st + List.length turns
                 =? List.length (technical_questions st))
          then Conclusion else conversation_stage st).
Proof.
  induction turns as [|t r IH]; intros st Hle.
  - cbn [answer_turns fold_left recorded_from List.length Nat.leb andb].
    rewrite app_nil_r, Nat.add_0_r. auto.
  - cbn [List.length] in Hle.
    destruct (answer_turn_spec st t ltac:(lia)) as (Hq & Ha & Hi & Hs & _).
    cbn [answer_turns fold_left]. fold (answer_turns (answer_turn st t) r).
    destruct (IH (answer_turn st t)) as (Hq' & Ha' & Hi' & Hs').
    { rewrite Hq, Hi. lia. }
    rewrite Hq', Ha', Hi', Hs', Hq, Ha, Hi, Hs.
    cbn [recorded_from List.length]. rewrite <- app_assoc.
    repeat split; try reflexivity; try lia.
    change (1 <=? S (List.length r)) with true. cbn [andb].
    destruct (Nat.leb_spec 1 (List.length r));
      destruct (Nat.eqb_spec (S (current_question_index st) + List.length r)
                             (List.length (technical_questions st)));
      destruct (Nat.eqb_spec (current_question_index st + S (List.length r))
                             (List.length (technical_questions st)));
      destruct (Nat.ltb_spec (S (current_question_index st))
                             (List.length (technical_questions st)));
      cbn [andb]; try reflexivity; lia.
Qed.
End TechnicalQuestions.

(* ================================================================== *)
(** * The conversation *)

Section Conversation.
Local Open Scope nat_scope.

Lemma keeps_refl (i : CandidateInfo) : keeps i i.
Proof. unfold keeps; repeat split; reflexivity. Qed.

Lemma keeps_trans (i j k : CandidateInfo) : keeps i j -> keeps j k -> keeps i k.
Proof.
  unfold keeps.
  intros (A1 & A2 & A3 & A4 & A5 & A6 & A7) (B1 & B2 & B3 & B4 & B5 & B6 & B7).
  repeat split; intros H;
    [ rewrite <- (A1 H); apply B1; rewrite (A1 H)
    | rewrite <- (A2 H); apply B2; rewrite (A2 H)
    | rewrite <- (A3 H); apply B3; rewrite (A3 H)
    | rewrite <- (A4 H); apply B4; rewrite (A4 H)
    | rewrite <- (A5 H); apply B5; rewrite (A5 H)
    | rewrite <- (A6 H); apply B6; rewrite (A6 H)
    | rewrite <- (A7 H); apply B7; rewrite (A7 H) ];
    exact H.
Qed.

Lemma gathering_info_any_stage (s : Stage) (st : SessionState) (user_input : string) :
  candidate_info (fst (handle_information_gathering (set_stage s st) user_input))
  = candidate_info (fst (handle_information_gathering st user_input)).
Proof.
  split_session st. unfold handle_information_gathering. session_simpl.
  branches; reflexivity.
Qed.

(** What a turn can do to the record: nothing, or what the
    information-gathering handler does to it. *)
Lemma conversation_info (w : World) (st : SessionState) (user_input : string) :
  let st' := fst (handle_conversation w st user_input) in
  candidate_info st' = candidate_info st
  \/ candidate_info st'
     = candidate_info (fst (handle_information_gathering st user_input)).
Proof.
  unfold handle_conversation.
  destruct (conversation_ended st); [now left|].
  destruct (detect_conversation_ending user_input); [now left|].
  destruct (conversation_stage st) eqn:Hs.
  - right. apply gathering_info_any_stage.
  - now right.
  - left. branches; reflexivity.
  - left. apply answering_info.
  - now left.
Qed.

Lemma conversation_in_order (w : World) (st : SessionState) (user_input : string) :
  in_order (filled (candidate_info st)) = true ->
  in_order (filled (candidate_info (fst (handle_conversation w st user_input))))
  = true.
Proof.
  intros H. destruct (conversation_info w st user_input) as [-> | ->];
    [assumption | now apply gathering_in_order].
Qed.

Lemma conversation_keeps (w : World) (st : SessionState) (user_input : string) :
  keeps (candidate_info st)
        (candidate_info (fst (handle_conversation w st user_input))).
Proof.
  destruct (conversation_info w st user_input) as [-> | ->];
    [apply keeps_refl | apply gathering_keeps].
Qed.

Lemma run_in_order (turns : list Turn) :
  forall st, in_order (filled (candidate_info st)) = true ->
             in_order (filled (candidate_info (run st turns))) = true.
Proof.
  induction turns as [|t r IH]; intros st H; [exact H|].
  apply IH, conversation_in_order, H.
Qed.

Lemma run_keeps (turns : list Turn) :
  forall st, keeps (candidate_info st) (candidate_info (run st turns)).
Proof.
  induction turns as [|t r IH]; intros st; [apply keeps_refl|].
  eapply keeps_trans; [apply conversation_keeps | apply IH].
Qed.

Lemma run_app (st : SessionState) (a b : list Turn) :
  run st (a ++ b) = run (run st a) b.
Proof. apply fold_left_app. Qed.

Lemma conversation_rank (w : World) (st : SessionState) (user_input : string) :
  stage_rank (conversation_stage st)
  <= stage_rank (conversation_stage (fst (handle_conversation w st user_input))).
Proof.
  unfold handle_conversation.
  destruct (conversation_ended st); [reflexivity|].
  destruct (detect_conversation_ending user_input); [reflexivity|].
  destruct (conversation_stage st) eqn:Hs.
  - destruct (gathering_stage (set_stage InfoGathering st) user_input) as [-> | ->];
      simpl; lia.
  - destruct (gathering_stage st user_input) as [-> | ->]; rewrite ?Hs; simpl; lia.
  - branches; simpl; rewrite ?Hs; simpl; lia.
  - destruct (answering_stage w st user_input) as [-> | ->]; rewrite ?Hs; simpl; lia.
  - simpl. rewrite Hs. reflexivity.
Qed.

Lemma run_rank (turns : list Turn) :
  forall st, stage_rank (conversation_stage st)
             <= stage_rank (conversation_stage (run st turns)).
Proof.
  induction turns as [|t r IH]; intros st; [reflexivity|].
  cbn [run fold_left]. etransitivity; [|apply IH].
  apply conversation_rank.
Qed.

Lemma ended_is_final (turns : list Turn) :
  forall st, conversation_ended st = true -> run st turns = st.
Proof.
  induction turns as [|t r IH]; intros st H; [reflexivity|].
  cbn [run fold_left]. unfold step at 2, handle_conversation. rewrite H.
  cbn [fst]. now apply IH.
Qed.

(** The generator labels every question it keeps, so none of them starts
    with the error marker. *)
Lemma generated_unmarked (w : World) (stack : list string) (n : nat) :
  existsb (fun q => Py.startswith q error_marker)
          (generate_technical_questions w stack n) = false.
Proof.
  unfold generate_technical_questions. cbv zeta.
  match goal with
  | |- context [fold_left ?f ?sel _] =>
      enough (G : forall acc,
                 existsb (fun q => Py.startswith q error_marker) acc = false ->
                 existsb (fun q => Py.startswith q error_marker)
                         (fold_left f sel acc) = false)
        by (apply G; reflexivity);
      generalize sel
  end.
  intros selected.
  induction selected as [|tech r IH]; intros acc H; [exact H|].
  cbn [fold_left]. apply IH.
  destruct (_ && _); [|exact H].
  rewrite existsb_app, H. reflexivity.
Qed.
End Conversation.

(* ================================================================== *)
(** * The scenario and the question batch *)

Section Batch.
Local Open Scope nat_scope.

(** In [generating_questions] the retry reply is given exactly when the
    generator kept no question at all; any question it kept is stored and
    presented. *)
Lemma generating_outcome (w : World) (st : SessionState) (user_input : string) :
  conversation_ended st = false ->
  detect_conversation_ending user_input = false ->
  conversation_stage st = GeneratingQuestions ->
  let stack := tech_stack (candidate_info st) in
  let questions :=
    generate_technical_questions w stack (Nat.min 3 (List.length stack)) in
  handle_conversation w st user_input
  = if Py.nonempty questions
    then (set_stage TechnicalQuestions (set_index 0 (set_questions questions st)),
          Some (assessment_ready questions))
    else (st, Some generation_failed).
Proof.
  intros He Hd Hs. unfold handle_conversation. rewrite He, Hd, Hs.
  cbv zeta. rewrite generated_unmarked. cbn [negb]. now rewrite andb_true_r.
Qed.

(** C1, as stated, fails: the scenario does not store the three-element
    list. *)
Lemma scenario_claimed_stack_refuted :
  ~ scenario_outcome offline_world ["Python"; "Django"; "Postgresql"].
Proof. intros (_ & _ & H). vm_compute in H. discriminate H. Qed.

(** C1 (amended).  From a fresh session in stage [info_gathering] the seven
    inputs of the scenario set every field of the record, move the stage
    to [generating_questions], and store the technologies Python, Go,
    Django, Postgresql: "go" is found inside "django". *)
Theorem scenario_fills_record (w : World) :
  scenario_outcome w ["Python"; "Go"; "Django"; "Postgresql"].
Proof. unfold scenario_outcome. vm_compute. auto. Qed.

(** C2 (the code departs from it).  One of three gateway calls fails, the
    other two succeed: the two questions are stored, the stage moves to
    [technical_questions] and the assessment is presented. *)
Theorem partial_batch_is_presented :
  conversation_stage awaiting_questions = GeneratingQuestions
  /\ tech_stack (candidate_info awaiting_questions)
     = ["Python"; "Go"; "Django"; "Postgresql"]
  /\ map (gateway_reply flaky_world) ["Python"; "Go"; "Django"]
     = [sample_question; sample_question; rate_limited]
  /\ Py.startswith rate_limited error_marker = true
  /\ handle_conversation flaky_world awaiting_questions "continue"
     = (set_stage TechnicalQuestions
          (set_index 0 (set_questions partial_batch awaiting_questions)),
        Some (assessment_ready partial_batch)).
Proof. vm_compute. repeat split; reflexivity. Qed.
End Batch.

(* ================================================================== *)
(** * The state machine and the validators *)

Section Claims.
Local Open Scope nat_scope.

(** C3.  Whatever the stage, an input that matches an ending pattern (such
    as "ok thanks, bye!") only sets [conversation_ended] and is answered by
    the closing message; once the flag is set every input is answered by
    the fixed message and leaves the session as it is, for any number of
    further turns. *)
Theorem ending_takes_precedence
    (w : World) (st : SessionState) (user_input : string) (turns : list Turn) :
  (conversation_ended st = false ->
   detect_conversation_ending user_input = true ->
   handle_conversation w st user_input = (set_ended true st, Some closing_reply))
  /\ detect_conversation_ending "ok thanks, bye!" = true
  /\ (conversation_ended st = true ->
      handle_conversation w st user_input = (st, Some ended_reply)
      /\ run st turns = st).
Proof.
  split; [|split].
  - intros He Hd. unfold handle_conversation. now rewrite He, Hd.
  - vm_compute. reflexivity.
  - intros He. split; [|now apply ended_is_final].
    unfold handle_conversation. now rewrite He.
Qed.

Lemma ending_takes_precedence_witness :
  handle_conversation offline_world two_questions "ok thanks, bye!"
  = (set_ended true two_questions, Some closing_reply)
  /\ run (set_ended true two_questions) [(flaky_world, "hello again")]
     = set_ended true two_questions.
Proof.
  split.
  - apply (ending_takes_precedence offline_world two_questions
             "ok thanks, bye!" []); reflexivity.
  - apply (ending_takes_precedence offline_world (set_ended true two_questions)
             "hello again" [(flaky_world, "hello again")]); reflexivity.
Defined.

(** C4.  Along every sequence of turns from a fresh session the set fields
    of the record form an initial segment of name, email, phone,
    experience, position, location, tech_stack; the information-gathering
    handler leaves every set field as it is, in any session; and so does
    every continuation of the conversation. *)
Theorem fields_fill_in_order
    (turns more : list Turn) (st : SessionState) (user_input : string) :
  in_order (filled (candidate_info (run initialize_session_state turns))) = true
  /\ keeps (candidate_info st)
           (candidate_info (fst (handle_information_gathering st user_input)))
  /\ keeps (candidate_info (run initialize_session_state turns))
           (candidate_info (run initialize_session_state (turns ++ more))).
Proof.
  split; [|split].
  - apply run_in_order. reflexivity.
  - apply gathering_keeps.
  - rewrite run_app. apply run_keeps.
Qed.

(** C5.  In stage [technical_questions] with N questions and the cursor at
    0, k answer turns (1 <= k <= N) append exactly the k records of those
    turns and leave the cursor at k; the stage is [conclusion] after the
    turns exactly when k = N, and still [technical_questions] before. *)
Theorem answers_follow_cursor (st : SessionState) (turns : list Turn) :
  conversation_stage st = TechnicalQuestions ->
  current_question_index st = 0 ->
  1 <= List.length turns <= List.length (technical_questions st) ->
  let st' := answer_turns st turns in
  technical_answers st'
  = (technical_answers st ++ recorded_from (technical_questions st) 0 turns)%list
  /\ List.length (technical_answers st')
     = List.length (technical_answers st) + List.length turns
  /\ current_question_index st' = List.length turns
  /\ (conversation_stage st' = Conclusion
      <-> List.length turns = List.length (technical_questions st))
  /\ (List.length turns < List.length (technical_questions st) ->
      conversation_stage st' = TechnicalQuestions).
Proof.
  intros Hs Hi Hk st'.
  destruct (answer_turns_spec turns st ltac:(lia)) as (_ & Ha & Hc & Hst).
  fold st' in Ha, Hc, Hst. rewrite Hi in *. cbn [Nat.add] in *.
  rewrite Ha, Hc, Hst, Hs, length_app, recorded_from_length.
  destruct (Nat.leb_spec 1 (List.length turns)); [|lia].
  destruct (Nat.eqb_spec (List.length turns)
                         (List.length (technical_questions st)));
    cbn [andb]; repeat split; intros; try reflexivity; try discriminate; try lia.
Qed.

Lemma answers_follow_cursor_witness :
  let turns := [(offline_world, " generators "); (flaky_world, "continue")] in
  List.length (technical_answers (answer_turns two_questions turns)) = 2
  /\ current_question_index (answer_turns two_questions turns) = 2
  /\ conversation_stage (answer_turns two_questions turns) = Conclusion.
Proof.
  intros turns.
  destruct (answers_follow_cursor two_questions turns) as (_ & Hl & Hc & Hs & _).
  - reflexivity.
  - reflexivity.
  - cbn. lia.
  - split; [exact Hl | split; [exact Hc | apply Hs; reflexivity]].
Defined.

(** C6.  In stage [greeting] an input that is not an ending phrase is
    handled by the information-gathering handler on the session moved to
    [info_gathering]; while the name is unset (as in a fresh session) the
    stage is [info_gathering] afterwards and the input itself is judged as
    the name. *)
Theorem greeting_reprocesses_input
    (w : World) (st : SessionState) (user_input : string) :
  conversation_ended st = false ->
  conversation_stage st = Greeting ->
  detect_conversation_ending user_input = false ->
  handle_conversation w st user_input
  = handle_information_gathering (set_stage InfoGathering st) user_input
  /\ (Py.truthy (name (candidate_info st)) = false ->
      handle_conversation w st user_input
      = if 2 <=? String.length (Py.strip user_input)
        then
          let info := set_name (Py.title (Py.strip user_input))
                               (candidate_info st) in
          (set_info info (set_stage InfoGathering st), Some (name_accepted info))
        else (set_stage InfoGathering st, Some name_rejected)).
Proof.
  intros He Hs Hd.
  assert (Heq : handle_conversation w st user_input
                = handle_information_gathering (set_stage InfoGathering st)
                                               user_input).
  { unfold handle_conversation. now rewrite He, Hd, Hs. }
  split; [exact Heq|].
  intros Hn. rewrite Heq. unfold handle_information_gathering.
  session_simpl. rewrite Hn. reflexivity.
Qed.

Lemma greeting_reprocesses_input_witness :
  conversation_stage
    (fst (handle_conversation offline_world initialize_session_state " jane doe"))
  = InfoGathering
  /\ name (candidate_info
             (fst (handle_conversation offline_world initialize_session_state
                                       " jane doe")))
     = "Jane Doe".
Proof.
  destruct (greeting_reprocesses_input offline_world initialize_session_state
              " jane doe") as [_ H]; try reflexivity.
  rewrite H by reflexivity. split; reflexivity.
Defined.





(** C9.  The extractor returns, without repetition and in table order, the
    title-cased tokens of the table that occur in the lower-cased text;
    texts that differ only in case give the same list; "Python and python
    again" gives Python once. *)
Theorem extraction_unique_ordered (text other : string) :
  NoDup (extract_tech_stack text)
  /\ extract_tech_stack text
     = map Py.title
           (filter (fun tech => Py.contains tech (Py.lower text)) table_tokens)
  /\ (Py.lower text = Py.lower other ->
      extract_tech_stack text = extract_tech_stack other)
  /\ extract_tech_stack (Py.lower text) = extract_tech_stack text
  /\ extract_tech_stack "Python and python again" = ["Python"].
Proof.
  split; [|split; [|split; [|split]]].
  - apply fromkeys_NoDup.
  - apply extract_tech_stack_filter.
  - intros H. unfold extract_tech_stack. now rewrite H.
  - unfold extract_tech_stack. now rewrite lower_idem.
  - vm_compute. reflexivity.
Qed.

Lemma extraction_unique_ordered_witness :
  extract_tech_stack "REACT with Redis" = extract_tech_stack "react WITH redis".
Proof.
  destruct (extraction_unique_ordered "REACT with Redis" "react WITH redis")
    as (_ & _ & H & _).
  apply H. reflexivity.
Defined.

(** C10.  A call of the main conversation handler never moves the stage
    back in the order greeting, info_gathering, generating_questions,
    technical_questions, conclusion; nor does any sequence of calls. *)
Theorem stage_never_goes_back
    (w : World) (st : SessionState) (user_input : string) (turns : list Turn) :
  stage_rank (conversation_stage st)
  <= stage_rank (conversation_stage (fst (handle_conversation w st user_input)))
  /\ stage_rank (conversation_stage st)
     <= stage_rank (conversation_stage (run st turns)).
Proof. split; [apply conversation_rank | apply run_rank]. Qed.
End Claims.

(* ================================================================== *)
(** * Further properties: the question generator *)

Section Generator.
Local Open Scope nat_scope.
Local Open Scope list_scope.

Lemma selected_techs_firstn {A} (stack : list A) (n : nat) :
  (if n <=? List.length stack then firstn n stack else stack) = firstn n stack.
Proof.
  destruct (Nat.leb_spec n (List.length stack)); [reflexivity|].
  symmetry. apply firstn_all2. lia.
Qed.

Lemma generated_fold (w : World) (selected : list string) :
  forall acc,
    fold_left
      (fun questions tech =>
         if Py.truthy (gateway_reply w tech)
            && negb (Py.startswith (gateway_reply w tech) error_marker)
         then questions ++ [labelled w tech] else questions)
      selected acc
    = acc ++ map (labelled w) (filter (kept w) selected).
Proof.
  induction selected as [|tech r IH]; intros acc; cbn [fold_left filter map].
  - now rewrite app_nil_r.
  - rewrite IH. unfold kept at 2.
    destruct (_ && _); cbn [map]; [now rewrite <- app_assoc | reflexivity].
Qed.

Lemma generated_questions_filter (w : World) (stack : list string) (n : nat) :
  generate_technical_questions w stack n
  = map (labelled w) (filter (kept w) (firstn n stack)).
Proof.
  unfold generate_technical_questions. cbv zeta.
  rewrite selected_techs_firstn.
  exact (generated_fold w (firstn n stack) []).
Qed.

Lemma generated_length (w : World) (stack : list string) (n : nat) :
  List.length (generate_technical_questions w stack n)
  <= Nat.min n (List.length stack).
Proof.
  rewrite generated_questions_filter, length_map.
  etransitivity; [apply filter_length_le|]. rewrite length_firstn. lia.
Qed.
End Generator.

(* ================================================================== *)
(** * Further properties: sessions a conversation can reach *)

Section Reachable.
Local Open Scope nat_scope.
Local Open Scope list_scope.

Lemma firstn_snoc_nth {A} (l : list A) (d : A) (k : nat) :
  k < List.length l -> firstn k l ++ [nth k l d] = firstn (S k) l.
Proof.
  revert k; induction l as [|a l IH]; intros k Hk; cbn [List.length] in Hk; [lia|].
  destruct k as [|k]; [reflexivity|].
  cbn [firstn nth app]. f_equal. apply IH. lia.
Qed.

Lemma initial_well_formed : well_formed initialize_session_state.
Proof. repeat split. Qed.

Lemma ended_well_formed (b : bool) (st : SessionState) :
  well_formed st -> well_formed (set_ended b st).
Proof. destruct st; exact (fun H => H). Qed.

(** From [greeting]: the record is empty, so the input is judged as the
    name. *)
Lemma greeting_well_formed (st : SessionState) (user_input : string) :
  conversation_stage st = Greeting -> well_formed st ->
  well_formed (fst (handle_information_gathering
                      (set_stage InfoGathering st) user_input)).
Proof.
  unfold well_formed. intros -> [Hinfo Hidle].
  destruct st as [stage info qs ans idx ended]. session_simpl. subst info.
  unfold handle_information_gathering, empty_info. session_simpl.
  cbn [Py.truthy negb].
  destruct (2 <=? _) eqn:Hlen; session_simpl; unfold filled; session_simpl.
  - apply title_truthy in Hlen. rewrite Hlen. repeat split; apply Hidle.
  - repeat split; apply Hidle.
Qed.

Lemma gathering_well_formed (st : SessionState) (user_input : string) :
  conversation_stage st = InfoGathering -> well_formed st ->
  well_formed (fst (handle_information_gathering st user_input)).
Proof.
  intros Hs Hwf.
  pose proof (gathering_in_order st user_input) as Hord.
  unfold well_formed in *. rewrite Hs in Hwf.
  destruct Hwf as (Hin & Hts & Hidle). specialize (Hord Hin).
  revert Hord. split_session st. unfold idle, complete, all_set, filled in *.
  session_simpl. subst. unfold handle_information_gathering. session_simpl.
  branches; session_simpl; intros Hord;
    try (repeat split; (exact Hord || apply Hidle || reflexivity));
    repeat match goal with
           | E : negb _ = false |- _ => apply negb_false_iff in E
           | E : negb _ = true |- _ => apply negb_true_iff in E
           end;
    try discriminate.
  repeat match goal with
         | E : Py.truthy _ = true |- _ => rewrite E
         end.
  match goal with
  | E : (2 <=? List.length _) = true |- _ =>
      rewrite (two_nonempty _ E); apply Nat.leb_le in E
  end.
  repeat split; try apply Hidle; [assumption | apply fromkeys_NoDup].
Qed.
End Reachable.

Section Reachable.
Local Open Scope nat_scope.
Local Open Scope list_scope.

Lemma nonempty_length {A} (l : list A) :
  Py.nonempty l = true <-> 1 <= List.length l.
Proof. destruct l; cbn; split; (discriminate || lia || reflexivity). Qed.

Lemma generating_well_formed (w : World) (st : SessionState) (user_input : string) :
  conversation_ended st = false ->
  detect_conversation_ending user_input = false ->
  conversation_stage st = GeneratingQuestions -> well_formed st ->
  well_formed (fst (handle_conversation w st user_input)).
Proof.
  intros He Hd Hs Hwf.
  rewrite (generating_outcome w st user_input He Hd Hs). cbv zeta.
  pose proof (generated_length w (tech_stack (candidate_info st))
                (Nat.min 3 (List.length (tech_stack (candidate_info st)))))
    as Hlen.
  destruct (Py.nonempty _) eqn:Hne; [|exact Hwf].
  apply nonempty_length in Hne.
  unfold well_formed in *. rewrite Hs in Hwf. destruct Hwf as (Hc & Hq & Ha & Hi).
  destruct st; session_simpl. unfold asked; session_simpl. subst.
  repeat split; try apply Hc; cbn [map firstn]; try reflexivity; lia.
Qed.

Lemma answering_well_formed (w : World) (st : SessionState) (user_input : string) :
  conversation_stage st = TechnicalQuestions -> well_formed st ->
  well_formed (fst (handle_technical_questions w st user_input)).
Proof.
  intros Hs Hwf. unfold well_formed in Hwf. rewrite Hs in Hwf.
  destruct Hwf as (Hc & (Hn & Hle & _ & Hal) & Hlt).
  destruct (answer_turn_spec st (w, user_input) Hlt)
    as (Hq & Ha & Hi & Hst & Hinfo & _).
  unfold answer_turn in *. cbn [fst snd] in *.
  unfold well_formed, asked. rewrite Hst, Hq, Ha, Hi, Hinfo, Hs.
  rewrite map_app, Hal. cbn [map recorded question].
  rewrite firstn_snoc_nth by exact Hlt.
  destruct (Nat.ltb_spec (S (current_question_index st))
                         (List.length (technical_questions st)));
    repeat split; try apply Hc; try apply Hn; try assumption; lia.
Qed.

Lemma conversation_well_formed (w : World) (st : SessionState) (user_input : string) :
  well_formed st -> well_formed (fst (handle_conversation w st user_input)).
Proof.
  intros Hwf.
  destruct (conversation_ended st) eqn:He.
  { unfold handle_conversation. now rewrite He. }
  destruct (detect_conversation_ending user_input) eqn:Hd.
  { unfold handle_conversation. rewrite He, Hd. now apply ended_well_formed. }
  destruct (conversation_stage st) eqn:Hs.
  - unfold handle_conversation. rewrite He, Hd, Hs.
    now apply greeting_well_formed.
  - unfold handle_conversation. rewrite He, Hd, Hs.
    now apply gathering_well_formed.
  - now apply generating_well_formed.
  - unfold handle_conversation. rewrite He, Hd, Hs.
    now apply answering_well_formed.
  - unfold handle_conversation. now rewrite He, Hd, Hs.
Qed.

Lemma run_well_formed (turns : list Turn) :
  forall st, well_formed st -> well_formed (run st turns).
Proof.
  induction turns as [|t r IH]; intros st H; [exact H|].
  apply IH, conversation_well_formed, H.
Qed.

Lemma all_set_in_order (info : CandidateInfo) :
  all_set info = true -> in_order (filled info) = true.
Proof.
  unfold all_set, filled. cbn [forallb in_order].
  rewrite !andb_true_iff. intros (-> & -> & -> & -> & -> & -> & -> & _).
  reflexivity.
Qed.

(** The handlers reply to every input that a well-formed session can
    receive. *)
Lemma well_formed_reply (w : World) (st : SessionState) (user_input : string) :
  well_formed st -> snd (handle_conversation w st user_input) <> None.
Proof.
  intros Hwf. unfold handle_conversation.
  destruct (conversation_ended st); [discriminate|].
  destruct (detect_conversation_ending user_input); [discriminate|].
  unfold well_formed in Hwf.
  destruct (conversation_stage st) eqn:Hs.
  - destruct Hwf as [Hinfo _]. destruct st as [? info ? ? ? ?].
    session_simpl. subst info. unfold handle_information_gathering, empty_info.
    session_simpl. cbn [Py.truthy negb]. branches; discriminate.
  - destruct Hwf as (_ & Hts & _). split_session st. session_simpl. subst.
    unfold handle_information_gathering. session_simpl. cbn [Py.nonempty negb].
    branches; discriminate.
  - branches; discriminate.
  - destruct Hwf as (_ & _ & Hlt). apply Nat.ltb_lt in Hlt.
    unfold handle_technical_questions. rewrite Hlt. branches; discriminate.
  - discriminate.
Qed.
End Reachable.

(* ================================================================== *)
(** * Further properties: what holds along every conversation *)

Section Reached.
Local Open Scope nat_scope.
Local Open Scope list_scope.

Lemma reached_well_formed (turns : list Turn) :
  well_formed (run initialize_session_state turns).
Proof. apply run_well_formed, initial_well_formed. Qed.

Lemma filled_fields_count (info : CandidateInfo) :
  in_order (filled info) = true ->
  filled info
  = repeat true (filled_fields info) ++ repeat false (7 - filled_fields info).
Proof.
  destruct info as [n e p x po l ts]. unfold filled, filled_fields.
  session_simpl. cbn [filter].
  destruct (Py.truthy n), (Py.truthy e), (Py.truthy p), (Py.truthy x),
    (Py.truthy po), (Py.truthy l), (Py.nonempty ts);
    cbn; intros H; try discriminate H; reflexivity.
Qed.

Lemma filled_fields_all_set (info : CandidateInfo) :
  filled_fields info = 7 <-> all_set info = true.
Proof.
  destruct info as [n e p x po l ts]. unfold all_set, filled, filled_fields.
  session_simpl. cbn [filter].
  destruct (Py.truthy n), (Py.truthy e), (Py.truthy p), (Py.truthy x),
    (Py.truthy po), (Py.truthy l), (Py.nonempty ts);
    cbn; split; intros H; try discriminate H; try reflexivity; lia.
Qed.

Lemma reached_complete (turns : list Turn) :
  let st := run initialize_session_state turns in
  (2 <= stage_rank (conversation_stage st)
   <-> all_set (candidate_info st) = true)
  /\ (all_set (candidate_info st) = true ->
      2 <= List.length (tech_stack (candidate_info st))
      /\ NoDup (tech_stack (candidate_info st))).
Proof.
  intros st. pose proof (reached_well_formed turns) as Hwf. fold st in Hwf.
  unfold well_formed, complete in Hwf.
  destruct (conversation_stage st); cbn [stage_rank].
  - destruct Hwf as [-> _]. split; [split; [lia | discriminate] | discriminate].
  - destruct Hwf as (_ & Hts & _).
    assert (Hno : all_set (candidate_info st) = false).
    { unfold all_set, filled. rewrite Hts. cbn. now rewrite !andb_false_r. }
    rewrite Hno. split; [split; [lia | discriminate] | discriminate].
  - destruct Hwf as ((Ha & Hl & Hn) & _). rewrite Ha. repeat split; auto; lia.
  - destruct Hwf as ((Ha & Hl & Hn) & _). rewrite Ha. repeat split; auto; lia.
  - destruct Hwf as ((Ha & Hl & Hn) & _). rewrite Ha. repeat split; auto; lia.
Qed.

(** X1.  Along any conversation from a fresh session the stage is
    [generating_questions] or later exactly when all seven fields of the
    record are set, and the stored technology list then has at least two
    entries and no repetition. *)
Theorem questions_need_complete_record (turns : list Turn) :
  let st := run initialize_session_state turns in
  (2 <= stage_rank (conversation_stage st)
   <-> all_set (candidate_info st) = true)
  /\ (all_set (candidate_info st) = true ->
      2 <= List.length (tech_stack (candidate_info st))
      /\ NoDup (tech_stack (candidate_info st))).
Proof. exact (reached_complete turns). Qed.

Lemma questions_need_complete_record_witness :
  2 <= List.length
         (tech_stack
            (candidate_info
               (run initialize_session_state
                    (map (fun i => (offline_world, i)) scenario_inputs)))).
Proof.
  apply (questions_need_complete_record
           (map (fun i => (offline_world, i)) scenario_inputs)).
  reflexivity.
Defined.

Lemma reached_assessment (turns : list Turn) :
  let st := run initialize_session_state turns in
  List.length (technical_questions st) <= 3
  /\ List.length (technical_questions st)
     <= List.length (tech_stack (candidate_info st))
  /\ map question (technical_answers st)
     = firstn (current_question_index st) (technical_questions st)
  /\ List.length (technical_answers st) = current_question_index st
  /\ current_question_index st <= List.length (technical_questions st)
  /\ (3 <= stage_rank (conversation_stage st)
      <-> 1 <= List.length (technical_questions st))
  /\ (conversation_stage st = Conclusion
      <-> 1 <= List.length (technical_questions st)
          /\ current_question_index st = List.length (technical_questions st)).
Proof.
  intros st. pose proof (reached_well_formed turns) as Hwf. fold st in Hwf.
  unfold well_formed, idle, asked in Hwf.
  destruct (conversation_stage st); cbn [stage_rank].
  1-3: assert (Hidle : technical_questions st = [] /\ technical_answers st = []
                       /\ current_question_index st = 0) by tauto;
       destruct Hidle as (-> & -> & ->); cbn;
       repeat split; intros; try lia; try discriminate; try tauto.
  - destruct Hwf as (_ & (Hn & Hle & Hc & Hal) & Hlt).
    assert (Hlen : List.length (technical_answers st) = current_question_index st).
    { rewrite <- (length_map question), Hal, length_firstn. lia. }
    repeat split; intros; try discriminate; try tauto; try lia.
  - destruct Hwf as (_ & (Hn & Hle & Hc & Hal) & Heq).
    assert (Hlen : List.length (technical_answers st) = current_question_index st).
    { rewrite <- (length_map question), Hal, length_firstn. lia. }
    repeat split; intros; try discriminate; try tauto; try lia.
Qed.

(** X2.  Along any conversation from a fresh session there are at most
    three questions and no more than there are stored technologies; the
    recorded answers are, in order, answers to the questions before the
    cursor, one each; questions exist exactly from [technical_questions]
    on, and the stage is [conclusion] exactly when all of them have been
    answered. *)
Theorem answers_align_with_questions (turns : list Turn) :
  let st := run initialize_session_state turns in
  List.length (technical_questions st) <= 3
  /\ List.length (technical_questions st)
     <= List.length (tech_stack (candidate_info st))
  /\ map question (technical_answers st)
     = firstn (current_question_index st) (technical_questions st)
  /\ List.length (technical_answers st) = current_question_index st
  /\ current_question_index st <= List.length (technical_questions st)
  /\ (3 <= stage_rank (conversation_stage st)
      <-> 1 <= List.length (technical_questions st))
  /\ (conversation_stage st = Conclusion
      <-> 1 <= List.length (technical_questions st)
          /\ current_question_index st = List.length (technical_questions st)).
Proof. exact (reached_assessment turns). Qed.

(** X3.  Every turn of a conversation from a fresh session gets a reply:
    the handlers' fall-through ([None]) is never reached. *)
Theorem every_turn_is_answered
    (turns : list Turn) (w : World) (user_input : string) :
  snd (handle_conversation w (run initialize_session_state turns) user_input)
  <> None.
Proof. apply well_formed_reply, reached_well_formed. Qed.

(** X4.  What the sidebar shows along any conversation from a fresh
    session: the counter of filled fields is the number of leading fields
    that are set (so it names the field asked next), it is 7 exactly from
    [generating_questions] on, and the answered-questions counter never
    exceeds the total. *)
Theorem sidebar_counters (turns : list Turn) :
  let st := run initialize_session_state turns in
  filled (candidate_info st)
  = repeat true (filled_fields (candidate_info st))
    ++ repeat false (total_fields - filled_fields (candidate_info st))
  /\ filled_fields (candidate_info st) <= total_fields
  /\ (filled_fields (candidate_info st) = total_fields
      <-> 2 <= stage_rank (conversation_stage st))
  /\ answered_questions st <= total_questions st.
Proof.
  intros st.
  pose proof (run_in_order turns initialize_session_state eq_refl) as Hord.
  fold st in Hord.
  pose proof (filled_fields_count _ Hord) as Hcount.
  destruct (reached_complete turns) as [Hrank _].
  fold st in Hrank.
  split; [exact Hcount|]. split; [|split].
  - apply (f_equal (@List.length bool)) in Hcount.
    rewrite length_app, !repeat_length in Hcount.
    unfold filled in Hcount at 1. cbn [List.length] in Hcount.
    unfold total_fields. lia.
  - unfold total_fields. now rewrite filled_fields_all_set, Hrank.
  - destruct (reached_assessment turns) as (_ & _ & _ & Hlen & Hle & _).
    fold st in Hlen, Hle. unfold answered_questions, total_questions. lia.
Qed.
End Reached.

(* ================================================================== *)
(** * Further properties: one turn *)

Section Turns.
Local Open Scope nat_scope.
Local Open Scope list_scope.

(** X5.  One call of the information-gathering handler either leaves the
    whole session as it was (the input was rejected, or the record was
    already complete) or sets exactly one more field and changes none of
    those that were set. *)
Theorem one_field_per_turn (st : SessionState) (user_input : string) :
  let st' := fst (handle_information_gathering st user_input) in
  st' = st
  \/ (filled_fields (candidate_info st') = S (filled_fields (candidate_info st))
      /\ keeps (candidate_info st) (candidate_info st')).
Proof.
  intros st'. pose proof (gathering_keeps st user_input) as Hk. fold st' in Hk.
  revert Hk. subst st'. split_session st.
  unfold handle_information_gathering. session_simpl.
  branches; session_simpl; intros Hk; try (left; reflexivity);
    right; (split; [|exact Hk]); stored_values;
    unfold filled_fields; session_simpl; cbn [filter];
    repeat match goal with
           | E : Py.truthy _ = _ |- _ => rewrite E
           | E : Py.nonempty _ = _ |- _ => rewrite E
           end;
    repeat match goal with
           | |- context [Py.truthy ?s] => destruct (Py.truthy s)
           | |- context [Py.nonempty ?s] => destruct (Py.nonempty s)
           end;
    cbn [List.length filter Nat.add]; lia.
Qed.

Lemma firstn_min_length {A} (l : list A) (n : nat) :
  firstn (Nat.min n (List.length l)) l = firstn n l.
Proof.
  destruct (Nat.le_ge_cases n (List.length l)) as [H|H].
  - now rewrite Nat.min_l.
  - rewrite Nat.min_r by exact H. rewrite firstn_all.
    symmetry. now apply firstn_all2.
Qed.

Lemma nonempty_map_filter {A B} (f : A -> B) (p : A -> bool) (l : list A) :
  Py.nonempty (map f (filter p l)) = existsb p l.
Proof.
  induction l as [|a l IH]; [reflexivity|]. cbn [filter existsb].
  destruct (p a); [reflexivity | exact IH].
Qed.

(** X6.  The generator returns one labelled question for each of the first
    [num_questions] technologies whose gateway call brought a text with no
    error marker, in the order of the list; so it never returns more than
    [num_questions] questions, nor more than there are technologies. *)
Theorem generated_questions_spec (w : World) (stack : list string) (n : nat) :
  generate_technical_questions w stack n
  = map (labelled w) (filter (kept w) (firstn n stack))
  /\ List.length (generate_technical_questions w stack n)
     <= Nat.min n (List.length stack).
Proof. split; [apply generated_questions_filter | apply generated_length]. Qed.

Lemma generating_cases (w : World) (st : SessionState) (user_input : string) :
  conversation_ended st = false ->
  detect_conversation_ending user_input = false ->
  conversation_stage st = GeneratingQuestions ->
  let selected := firstn 3 (tech_stack (candidate_info st)) in
  let questions := map (labelled w) (filter (kept w) selected) in
  handle_conversation w st user_input
  = if existsb (kept w) selected
    then (set_stage TechnicalQuestions (set_index 0 (set_questions questions st)),
          Some (assessment_ready questions))
    else (st, Some generation_failed).
Proof.
  intros He Hd Hs. rewrite (generating_outcome w st user_input He Hd Hs).
  cbv zeta. rewrite generated_questions_filter, firstn_min_length.
  now rewrite nonempty_map_filter.
Qed.

(** X7.  In [generating_questions] the retry message is given, and the
    session left as it was, exactly when none of the (at most three) calls
    brought a usable text; as soon as one did, the questions that came
    back are stored, the cursor is 0 and the stage is
    [technical_questions]. *)
Theorem generation_fails_only_when_every_call_fails
    (w : World) (st : SessionState) (user_input : string) :
  conversation_ended st = false ->
  detect_conversation_ending user_input = false ->
  conversation_stage st = GeneratingQuestions ->
  let selected := firstn 3 (tech_stack (candidate_info st)) in
  let result := handle_conversation w st user_input in
  (existsb (kept w) selected = false ->
   result = (st, Some generation_failed))
  /\ (existsb (kept w) selected = true ->
      conversation_stage (fst result) = TechnicalQuestions
      /\ technical_questions (fst result)
         = map (labelled w) (filter (kept w) selected)
      /\ current_question_index (fst result) = 0
      /\ snd result <> Some generation_failed)
  /\ (fst result = st <-> existsb (kept w) selected = false).
Proof.
  intros He Hd Hs selected result. subst result.
  rewrite (generating_cases w st user_input He Hd Hs). fold selected.
  destruct (existsb (kept w) selected); cbn [fst snd]; session_simpl.
  - split; [discriminate|]. split.
    + intros _. repeat split. intros H. injection H as H. discriminate H.
    + split; [|discriminate]. intros H.
      apply (f_equal conversation_stage) in H. session_simpl. congruence.
  - split; [reflexivity|]. split; [discriminate | tauto].
Qed.

Lemma generation_fails_only_when_every_call_fails_witness :
  handle_conversation offline_world awaiting_questions "continue"
  = (awaiting_questions, Some generation_failed)
  /\ conversation_stage
       (fst (handle_conversation flaky_world awaiting_questions "continue"))
     = TechnicalQuestions.
Proof.
  split.
  - apply (generation_fails_only_when_every_call_fails
             offline_world awaiting_questions "continue"); reflexivity.
  - apply (generation_fails_only_when_every_call_fails
             flaky_world awaiting_questions "continue"); reflexivity.
Defined.
End Turns.

(* ================================================================== *)
(** * Further properties: the gateway *)

Section GatewayFacts.
Local Open Scope nat_scope.
Local Open Scope list_scope.

Variable key : option string.
Variable post : Gateway.Payload -> Gateway.Outcome.

Lemma gateway_marks_failure
    (prompt : string) (max_tokens : nat) (temperature : QArith_base.Q)
    (context_messages : list Message) :
  Gateway.configured key = false
  \/ (forall payload, Gateway.delivered (post payload) = false) ->
  Py.startswith
    (Gateway.ask_llama key post prompt max_tokens temperature context_messages)
    error_marker = true.
Proof.
  intros H. unfold Gateway.ask_llama.
  destruct (Gateway.configured key) eqn:Hk; cbn [negb]; [|reflexivity].
  destruct H as [H|H]; [discriminate|].
  match goal with |- context [post ?p] => specialize (H p); destruct (post p) as [code body| | |e] end;
    try reflexivity.
  destruct (Nat.eqb_spec code 200) as [->|_].
  - destruct body; [discriminate H | reflexivity].
  - destruct (code =? 401); [reflexivity|].
    destruct (code =? 429); reflexivity.
Qed.

Lemma failing_gateway_keeps_nothing (now : string) (tech : string) :
  Gateway.configured key = false
  \/ (forall payload, Gateway.delivered (post payload) = false) ->
  kept (served_by key post now) tech = false.
Proof.
  intros H. unfold kept, gateway_reply, served_by. cbn [ask_llama].
  rewrite gateway_marks_failure by exact H. apply andb_false_r.
Qed.
End GatewayFacts.

Section GatewayTheorems.
Local Open Scope nat_scope.
Local Open Scope list_scope.

(** X8.  [ask_llama] returns the completion text as it came when the key
    is configured and the call answered 200 with a completion; in every
    other case (no key, another status, a body without the completion, a
    timeout, a connection error, any other exception) what it returns
    starts with the error marker. *)
Theorem gateway_failures_are_marked
    (key : option string) (post : Gateway.Payload -> Gateway.Outcome)
    (prompt : string) (max_tokens : nat) (temperature : QArith_base.Q)
    (context_messages : list Message) :
  let payload :=
    {| Gateway.model := Gateway.MODEL_NAME;
       Gateway.max_tokens := max_tokens;
       Gateway.temperature := temperature;
       Gateway.messages :=
         context_messages ++ [ {| role := "user"; content := prompt |} ] |} in
  let reply :=
    Gateway.ask_llama key post prompt max_tokens temperature context_messages in
  (Gateway.configured key = true ->
   forall content,
     post payload = Gateway.Status 200 (Gateway.Completion content) ->
     reply = content)
  /\ (Gateway.configured key = false \/ Gateway.delivered (post payload) = false ->
      Py.startswith reply error_marker = true).
Proof.
  intros payload reply. subst reply. unfold Gateway.ask_llama. fold payload.
  split.
  - intros -> content ->. reflexivity.
  - destruct (Gateway.configured key); cbn [negb]; [|reflexivity].
    intros [H|H]; [discriminate|].
    destruct (post payload) as [code body| | |e]; try reflexivity.
    destruct (Nat.eqb_spec code 200) as [->|_].
    + destruct body; [discriminate H | reflexivity].
    + destruct (code =? 401); [reflexivity|].
      destruct (code =? 429); reflexivity.
Qed.

Lemma gateway_failures_are_marked_witness :
  Gateway.ask_llama (Some "k") (fun _ => Gateway.Status 200 (Gateway.Completion "Why?"))
                    "ask" 200 (QArith_base.Qmake 8 10) interviewer_context
  = "Why?"
  /\ Py.startswith
       (Gateway.ask_llama (Some "k") (fun _ => Gateway.Status 503 (Gateway.Malformed ""))
                          "ask" 200 (QArith_base.Qmake 8 10) interviewer_context)
       error_marker = true.
Proof.
  split.
  - apply (gateway_failures_are_marked
             (Some "k") (fun _ => Gateway.Status 200 (Gateway.Completion "Why?"))
             "ask" 200 (QArith_base.Qmake 8 10) interviewer_context);
      reflexivity.
  - apply (gateway_failures_are_marked
             (Some "k") (fun _ => Gateway.Status 503 (Gateway.Malformed ""))
             "ask" 200 (QArith_base.Qmake 8 10) interviewer_context).
    right. reflexivity.
Defined.

Lemma blocked_step
    (key : option string) (post : Gateway.Payload -> Gateway.Outcome)
    (now : string) (st : SessionState) (user_input : string) :
  Gateway.configured key = false
  \/ (forall payload, Gateway.delivered (post payload) = false) ->
  stage_rank (conversation_stage st) <= 2 ->
  stage_rank (conversation_stage
                (fst (handle_conversation (served_by key post now) st user_input)))
  <= 2.
Proof.
  intros Hfail Hr.
  destruct (conversation_ended st) eqn:He.
  { unfold handle_conversation. now rewrite He. }
  destruct (detect_conversation_ending user_input) eqn:Hd.
  { unfold handle_conversation. rewrite He, Hd. destruct st; exact Hr. }
  destruct (conversation_stage st) eqn:Hs; cbn [stage_rank] in Hr; try lia.
  - unfold handle_conversation. rewrite He, Hd, Hs.
    destruct (gathering_stage (set_stage InfoGathering st) user_input) as [-> | ->];
      cbn; lia.
  - unfold handle_conversation. rewrite He, Hd, Hs.
    destruct (gathering_stage st user_input) as [-> | ->]; rewrite ?Hs; cbn; lia.
  - rewrite (generating_cases _ st user_input He Hd Hs). cbv zeta.
    replace (existsb _ _) with false; [cbn [fst]; rewrite Hs; cbn; lia|].
    symmetry. apply not_true_is_false. intros H.
    apply existsb_exists in H as [tech [_ H]].
    now rewrite failing_gateway_keeps_nothing in H.
Qed.

(** X9.  When the gateway has no key, or no call to it ever brings a
    completion, a conversation from a fresh session never gets past
    [generating_questions]: no question is ever stored, whatever the
    candidate types and however often they retry. *)
Theorem failing_gateway_blocks_assessment
    (key : option string) (post : Gateway.Payload -> Gateway.Outcome)
    (turns : list Turn) :
  Gateway.configured key = false
  \/ (forall payload, Gateway.delivered (post payload) = false) ->
  served_throughout key post turns ->
  let st := run initialize_session_state turns in
  stage_rank (conversation_stage st) <= 2
  /\ technical_questions st = []
  /\ technical_answers st = [].
Proof.
  intros Hfail Hserved st.
  assert (Hrank : stage_rank (conversation_stage st) <= 2).
  { subst st. unfold run.
    assert (H0 : stage_rank (conversation_stage initialize_session_state) <= 2)
      by (cbn; lia).
    revert H0. generalize initialize_session_state.
    induction Hserved as [|t r [now Ht] _ IH]; intros s0 H0; [exact H0|].
    cbn [fold_left]. apply IH. unfold step. rewrite Ht.
    now apply blocked_step. }
  split; [exact Hrank|].
  pose proof (reached_well_formed turns) as Hwf. fold st in Hwf.
  unfold well_formed, idle in Hwf.
  destruct (conversation_stage st); cbn [stage_rank] in Hrank; try lia; tauto.
Qed.

Lemma failing_gateway_blocks_assessment_witness :
  let unset := served_by None (fun _ => Gateway.Timeout) "2024-05-01T10:00:00" in
  technical_questions
    (run initialize_session_state
         (map (fun i => (unset, i)) (scenario_inputs ++ ["continue"; "continue"])))
  = [].
Proof.
  intros unset.
  apply (failing_gateway_blocks_assessment None (fun _ => Gateway.Timeout)).
  - left. reflexivity.
  - unfold served_throughout. apply Forall_forall. intros t Ht.
    apply in_map_iff in Ht as [i [<- _]]. eexists. reflexivity.
Defined.
End GatewayTheorems.

(* ================================================================== *)
(** * Further properties: substrings and extraction *)

Section Substrings.

Lemma prefix_spec (a b : string) :
  String.prefix a b = true <-> exists post, b = a ++ post.
Proof.
  revert b; induction a as [|c a IH]; intros b.
  - split; [intros _; exists b; reflexivity | destruct b; reflexivity].
  - destruct b as [|d b]; cbn [String.prefix].
    + split; [discriminate | intros [post H]; discriminate H].
    + destruct (Ascii.ascii_dec c d) as [->|Hne].
      * rewrite IH. split; intros [post H]; exists post.
        -- cbn. now rewrite H.
        -- cbn in H. now injection H.
      * split; [discriminate | intros [post H]]. cbn in H. injection H as H _.
        congruence.
Qed.

Lemma contains_unfold (a b : string) :
  Py.contains a b
  = if String.prefix a b then true
    else match b with
         | EmptyString => false
         | String _ r => Py.contains a r
         end.
Proof. destruct b; reflexivity. Qed.

Lemma contains_spec (a b : string) :
  Py.contains a b = true <-> exists pre post, b = pre ++ a ++ post.
Proof.
  split.
  - induction b as [|c b IH]; rewrite contains_unfold;
      destruct (String.prefix a _) eqn:Hp.
    + intros _. apply prefix_spec in Hp as [post ->]. now exists "", post.
    + discriminate.
    + intros _. apply prefix_spec in Hp as [post ->]. now exists "", post.
    + intros H. destruct (IH H) as (pre & post & ->).
      now exists (String c pre), post.
  - intros (pre & post & ->). induction pre as [|c pre IH].
    + rewrite contains_unfold.
      replace (String.prefix a ("" ++ a ++ post)) with true; [reflexivity|].
      symmetry. apply prefix_spec. now exists post.
    + rewrite contains_unfold. destruct (String.prefix a _); [reflexivity|].
      exact IH.
Qed.

Lemma string_append_assoc (a b c : string) : (a ++ b) ++ c = a ++ b ++ c.
Proof. induction a as [|x a IH]; cbn; [reflexivity | now rewrite IH]. Qed.

Lemma contains_trans (a b c : string) :
  Py.contains a b = true -> Py.contains b c = true -> Py.contains a c = true.
Proof.
  rewrite !contains_spec. intros (p1 & q1 & ->) (p2 & q2 & ->).
  exists (p2 ++ p1), (q1 ++ q2). now rewrite !string_append_assoc.
Qed.

Lemma lower_append (a b : string) :
  Py.lower (a ++ b) = Py.lower a ++ Py.lower b.
Proof. induction a as [|x a IH]; cbn; [reflexivity | now rewrite IH]. Qed.

Lemma contains_lower (a b : string) :
  Py.contains a b = true -> Py.contains (Py.lower a) (Py.lower b) = true.
Proof.
  rewrite !contains_spec. intros (pre & post & ->).
  exists (Py.lower pre), (Py.lower post). now rewrite !lower_append.
Qed.
End Substrings.

Section ExtractionFacts.
Local Open Scope list_scope.

Lemma In_extract (text x : string) :
  In x (extract_tech_stack text)
  <-> exists tech, In tech table_tokens
                   /\ Py.contains tech (Py.lower text) = true
                   /\ x = Py.title tech.
Proof.
  rewrite extract_tech_stack_filter, in_map_iff.
  split; intros [tech H]; exists tech.
  - destruct H as [<- H]. apply filter_In in H. tauto.
  - destruct H as (Hin & Hc & ->). split; [reflexivity|].
    apply filter_In. tauto.
Qed.

Lemma title_determines_token (a b : string) :
  In a table_tokens -> In b table_tokens -> Py.title a = Py.title b -> a = b.
Proof.
  pose proof table_titles_NoDup as Hnd. revert Hnd.
  generalize table_tokens as l.
  induction l as [|x l IH]; intros Hnd Ha Hb Heq; [destruct Ha|].
  cbn [map] in Hnd. apply NoDup_cons_iff in Hnd as [Hx Hnd].
  destruct Ha as [<-|Ha], Hb as [<-|Hb]; auto.
  - exfalso. apply Hx. rewrite Heq. now apply in_map.
  - exfalso. apply Hx. rewrite <- Heq. now apply in_map.
Qed.

(** X10.  A text that contains another text yields every technology the
    other one yields: extraction only grows with the text. *)
Theorem extraction_grows_with_text (inner outer : string) :
  Py.contains inner outer = true ->
  incl (extract_tech_stack inner) (extract_tech_stack outer).
Proof.
  intros Hc x Hx. apply In_extract in Hx as (tech & Hin & Hocc & ->).
  apply In_extract. exists tech. repeat split; [exact Hin|].
  eapply contains_trans; [exact Hocc | now apply contains_lower].
Qed.

Lemma extraction_grows_with_text_witness :
  incl (extract_tech_stack "React")
       (extract_tech_stack "Mostly React and some Redis").
Proof.
  apply (extraction_grows_with_text "React" "Mostly React and some Redis").
  reflexivity.
Defined.

(** X11.  A token of the table that occurs inside another token is found
    whenever the other one is: any text that yields Django also yields Go,
    any text that yields Javascript also yields Java. *)
Theorem token_inside_token (a b text : string) :
  In a table_tokens -> In b table_tokens -> Py.contains a b = true ->
  In (Py.title b) (extract_tech_stack text) ->
  In (Py.title a) (extract_tech_stack text).
Proof.
  intros Ha Hb Hab Hx. apply In_extract in Hx as (tech & Hin & Hocc & Heq).
  apply (title_determines_token b tech Hb Hin) in Heq as <-.
  apply In_extract. exists a. repeat split; [exact Ha|].
  eapply contains_trans; eassumption.
Qed.

Lemma token_inside_token_witness :
  In "Go" (extract_tech_stack "I only know Django")
  /\ In "Java" (extract_tech_stack "JavaScript, mostly").
Proof.
  split.
  - apply (token_inside_token "go" "django" "I only know Django");
      vm_compute; tauto.
  - apply (token_inside_token "java" "javascript" "JavaScript, mostly");
      vm_compute; tauto.
Defined.
End ExtractionFacts.

(* ================================================================== *)
(** * Further properties: e-mail addresses *)

Section Email.
Local Open Scope nat_scope.
Local Open Scope list_scope.

Lemma run_firstn (cls : ascii -> bool) (u : Re.text) (j : nat) :
  j <= Re.run cls u ->
  forallb cls (firstn j u) = true /\ List.length (firstn j u) = j.
Proof.
  revert j; induction u as [|c u IH]; intros j Hj; cbn [Re.run] in Hj.
  - assert (j = 0) as -> by lia. now split.
  - destruct j as [|j]; [now split|].
    destruct (cls c) eqn:Hc; [|lia].
    destruct (IH j ltac:(lia)) as [Hall Hlen].
    cbn [firstn forallb List.length]. rewrite Hc, Hall, Hlen. now split.
Qed.

Lemma run_covers (cls : ascii -> bool) (a b : Re.text) :
  forallb cls a = true -> List.length a <= Re.run cls (a ++ b).
Proof.
  induction a as [|c a IH]; cbn [forallb app Re.run List.length]; [lia|].
  intros H. apply andb_true_iff in H as [-> H]. specialize (IH H). lia.
Qed.

Lemma one_char_prefix (c : ascii) (u : Re.text) :
  Re.is_prefix [c] u = true <-> exists rest, u = c :: rest.
Proof.
  destruct u as [|d u]; cbn [Re.is_prefix].
  - split; [discriminate | intros [rest H]; discriminate H].
  - rewrite andb_true_r, Ascii.eqb_eq. split.
    + intros ->. now exists u.
    + intros [rest H]. now injection H.
Qed.

Lemma skipn_length_app {A} (a b : list A) : skipn (List.length a) (a ++ b) = b.
Proof. induction a as [|x a IH]; [reflexivity | exact IH]. Qed.

Lemma skipn_more {A} (t : list A) (i j : nat) :
  skipn (i + j) t = skipn j (skipn i t).
Proof.
  revert t; induction i as [|i IH]; intros t; [reflexivity|].
  destruct t as [|x t]; cbn [Nat.add skipn]; [now destruct j | apply IH].
Qed.

Lemma line_end_tail (t : Re.text) (k : nat) :
  k = List.length t
  \/ (S k = List.length t /\ nth_error t k = Some Re.newline) ->
  skipn k t = [] \/ skipn k t = [Re.newline].
Proof.
  intros [->|[Hlen Hnl]]; [left; apply skipn_all|right].
  rewrite (skipn_cons_nth t k _ Hnl). f_equal.
  apply skipn_all2. lia.
Qed.

Lemma tail_line_end (pre tail : Re.text) :
  tail = [] \/ tail = [Re.newline] ->
  List.length pre = List.length (pre ++ tail)
  \/ (S (List.length pre) = List.length (pre ++ tail)
      /\ nth_error (pre ++ tail) (List.length pre) = Some Re.newline).
Proof.
  intros [->| ->]; [left; now rewrite app_nil_r|right].
  rewrite length_app, nth_error_app2, Nat.sub_diag by lia.
  cbn. split; [lia | reflexivity].
Qed.

Lemma email_pattern_shape (t : Re.text) :
  (exists j, matches email_pattern t 0 j) <-> email_shape t.
Proof.
  unfold email_shape. split.
  - intros (j & k0 & [_ ->] & k1 & (Hlo1 & Hrun1 & _) & k2 & [Hat ->]
              & k3 & (Hlo2 & Hrun2 & _) & k4 & [Hdot ->]
              & k5 & (Hlo3 & Hrun3 & _) & Hend & ->).
    change (list_ascii_of_string "@") with ["@"%char] in *.
    change (list_ascii_of_string ".") with ["."%char] in *.
    cbn [List.length skipn] in *.
    apply one_char_prefix in Hat as [u2 Hu2].
    apply one_char_prefix in Hdot as [u4 Hu4].
    apply line_end_tail in Hend.
    assert (E2 : skipn (k1 + 1) t = u2).
    { rewrite skipn_more, Hu2. reflexivity. }
    assert (E4 : skipn (k3 + 1) t = u4).
    { rewrite skipn_more, Hu4. reflexivity. }
    rewrite E2 in *. rewrite E4 in *.
    assert (E3 : skipn k3 t = skipn (k3 - (k1 + 1)) u2).
    { rewrite <- E2, <- skipn_more. f_equal. lia. }
    assert (E5 : skipn k5 t = skipn (k5 - (k3 + 1)) u4).
    { rewrite <- E4, <- skipn_more. f_equal. lia. }
    assert (R1 : k1 <= Re.run local_char t) by (unfold local_char; lia).
    assert (R2 : k3 - (k1 + 1) <= Re.run domain_char u2)
      by (unfold domain_char; lia).
    assert (R3 : k5 - (k3 + 1) <= Re.run Py.isalpha u4) by lia.
    destruct (run_firstn _ _ _ R1) as [Ha1 Hl1].
    destruct (run_firstn _ _ _ R2) as [Ha2 Hl2].
    destruct (run_firstn _ _ _ R3) as [Ha3 Hl3].
    exists (firstn k1 t), (firstn (k3 - (k1 + 1)) u2),
           (firstn (k5 - (k3 + 1)) u4), (skipn k5 t).
    repeat split; try assumption.
    + rewrite E5, firstn_skipn, <- Hu4, E3, firstn_skipn, <- Hu2.
      now rewrite firstn_skipn.
    + intros H. rewrite H in Hl1. cbn in Hl1. lia.
    + intros H. rewrite H in Hl2. cbn in Hl2. lia.
    + lia.
  - intros (local & domain & tld & tail & -> & Hn1 & Ha1 & Hn2 & Ha2
              & Hl3 & Ha3 & Htail).
    set (k1 := List.length local).
    set (k3 := k1 + 1 + List.length domain).
    set (k5 := k3 + 1 + List.length tld).
    assert (S1 : forall rest, skipn k1 (local ++ rest) = rest)
      by (intros; apply skipn_length_app).
    assert (S3 : forall rest,
               skipn k3 (local ++ "@"%char :: domain ++ rest) = rest).
    { intros rest. unfold k3. rewrite !skipn_more, S1. cbn [skipn].
      apply skipn_length_app. }
    assert (S5 : forall rest,
               skipn k5 (local ++ "@"%char :: domain ++ "."%char :: tld ++ rest)
               = rest).
    { intros rest. unfold k5. rewrite !skipn_more, S3. cbn [skipn].
      apply skipn_length_app. }
    exists k5, 0. split; [now split|].
    exists k1. split.
    { cbn [matches Re.Plus skipn]. split; [|split; [|exact I]].
      - destruct local; [congruence | cbn; lia].
      - apply run_covers, Ha1. }
    exists (k1 + 1). split.
    { cbn [matches Re.Plus]. rewrite S1. split; [|reflexivity].
      apply one_char_prefix. eexists. reflexivity. }
    exists k3. split.
    { cbn [matches Re.Plus]. rewrite skipn_more, S1. cbn [skipn].
      split; [|split; [|exact I]].
      - unfold k3. destruct domain; [congruence | cbn; lia].
      - unfold k3. apply Nat.add_le_mono_l, run_covers, Ha2. }
    exists (k3 + 1). split.
    { cbn [matches Re.Plus]. rewrite S3. split; [|reflexivity].
      apply one_char_prefix. eexists. reflexivity. }
    exists k5. split.
    { cbn [matches Re.Plus]. rewrite skipn_more, S3. cbn [skipn].
      split; [|split; [|exact I]].
      - unfold k5. lia.
      - unfold k5. apply Nat.add_le_mono_l, run_covers, Ha3. }
    cbn [matches Re.Plus]. split; [|reflexivity].
    replace (local ++ "@"%char :: domain ++ "."%char :: tld ++ tail)
      with ((local ++ "@"%char :: domain ++ "."%char :: tld) ++ tail)
      by (rewrite <- !app_assoc; cbn; rewrite <- !app_assoc; reflexivity).
    replace k5 with (List.length (local ++ "@"%char :: domain ++ "."%char :: tld)).
    + now apply tail_line_end.
    + unfold k5, k3, k1. rewrite !length_app. cbn. rewrite !length_app. cbn. lia.
Qed.

Lemma validate_email_shape (s : string) :
  validate_email s = true
  <-> 5 <= String.length s <= 254 /\ email_shape (list_ascii_of_string s).
Proof.
  unfold validate_email.
  destruct s as [|c s]; cbn [Py.truthy negb orb].
  { split; [discriminate | cbn; lia]. }
  destruct (Nat.ltb_spec (String.length (String c s)) 5); cbn [orb].
  { split; [discriminate | lia]. }
  destruct (Nat.ltb_spec 254 (String.length (String c s))); cbn [orb].
  { split; [discriminate | lia]. }
  rewrite rmatch_spec, email_pattern_shape. split; [split; [lia|assumption] | tauto].
Qed.
End Email.

(* ================================================================== *)
(** * Further properties: ending words *)

Section Search.
Local Open Scope nat_scope.
Local Open Scope list_scope.





End Search.

Section Boundaries.
Local Open Scope nat_scope.
Local Open Scope list_scope.

End Boundaries.

Section EndingWords.
Local Open Scope nat_scope.
Local Open Scope list_scope.







End EndingWords.

Section EndingTheorem.


End EndingTheorem.

(* ================================================================== *)
(** * Further properties: the page *)

Section PageFacts.
Local Open Scope nat_scope.
Local Open Scope list_scope.

Lemma dialogue_ended (st : SessionState) (turns : list Turn) :
  conversation_ended st = true -> dialogue st turns = [].
Proof. intros H. destruct turns; cbn [dialogue]; [|rewrite H]; reflexivity. Qed.

Lemma dialogue_app (a b : list Turn) :
  forall st, dialogue st (a ++ b) = dialogue st a ++ dialogue (run st a) b.
Proof.
  induction a as [|t r IH]; intros st; [reflexivity|].
  cbn [app dialogue]. destruct (conversation_ended st) eqn:He.
  - rewrite (ended_is_final _ st He). now rewrite dialogue_ended.
  - cbn [app]. rewrite IH. reflexivity.
Qed.

Lemma submitted_app (a b : list Visit) :
  submitted (a ++ b) = submitted a ++ submitted b.
Proof. apply flat_map_app. Qed.

(** One run of the page on a session that has been greeted. *)
Lemma main_greeted (w : World) (page : Page) (user_input : option string) :
  Py.nonempty (transcript page) = true ->
  main w (Some page) user_input
  = {| transcript :=
         transcript page ++ dialogue (session page) (submitted [(w, user_input)]);
       session := run (session page) (submitted [(w, user_input)]) |}.
Proof.
  intros Hne. unfold main, submitted. rewrite Hne. cbn [negb flat_map fst snd].
  destruct (conversation_ended (session page)) eqn:He; cbn [negb].
  - rewrite dialogue_ended, ended_is_final, app_nil_r by exact He.
    now destruct page.
  - destruct user_input as [text|]; [destruct (Py.truthy text)|];
      cbn [app dialogue run fold_left step fst snd]; rewrite ?He, ?app_nil_r;
      try (now destruct page).
    now rewrite <- app_assoc.
Qed.

Lemma main_first (w : World) (user_input : option string) :
  main w None user_input
  = main w (Some {| transcript := [greeting_message];
                    session := initialize_session_state |}) user_input.
Proof. reflexivity. Qed.

Lemma browse_greeted (visits : list Visit) :
  forall page,
    Py.nonempty (transcript page) = true ->
    browse (Some page) visits
    = Some {| transcript :=
                transcript page ++ dialogue (session page) (submitted visits);
              session := run (session page) (submitted visits) |}.
Proof.
  induction visits as [|[w input] r IH]; intros page Hne.
  - cbn. rewrite app_nil_r. now destruct page.
  - cbn [browse fold_left fst snd]. fold (browse (Some (main w (Some page) input)) r).
    rewrite (main_greeted w page input Hne), IH.
    + cbn [transcript session].
      change ((w, input) :: r) with ([(w, input)] ++ r).
      rewrite submitted_app, dialogue_app, run_app, app_assoc. reflexivity.
    + cbn [transcript]. destruct (transcript page); [discriminate Hne | reflexivity].
Qed.

Lemma dialogue_replies (turns : list Turn) :
  forall st, well_formed st ->
             Forall (fun m => chat_content m <> None) (dialogue st turns).
Proof.
  induction turns as [|t r IH]; intros st Hwf; cbn [dialogue]; [constructor|].
  destruct (conversation_ended st); [constructor|].
  constructor; [discriminate|]. constructor.
  - cbn [chat_content]. now apply well_formed_reply.
  - now apply IH, conversation_well_formed.
Qed.

Lemma dialogue_roles (turns : list Turn) :
  forall st, exists n,
    n <= List.length turns
    /\ map chat_role (dialogue st turns)
       = List.concat (repeat ["user"; "assistant"] n).
Proof.
  induction turns as [|t r IH]; intros st; cbn [dialogue].
  - exists 0. split; [lia | reflexivity].
  - destruct (conversation_ended st).
    + exists 0. split; [lia | reflexivity].
    + destruct (IH (fst (handle_conversation (fst t) st (snd t)))) as (n & Hn & Hr).
      exists (S n). split; [cbn; lia|]. cbn [map chat_role repeat List.concat app].
      now rewrite Hr.
Qed.
End PageFacts.

Section PageTheorem.
Local Open Scope nat_scope.
Local Open Scope list_scope.

(** X14.  After any number (at least one) of runs of the page on a new
    session, the session is the one that [handle_conversation] reaches on
    the inputs submitted, and the transcript is the greeting followed by
    the dialogue of those turns: the user's input and the assistant's
    reply for each turn up to the one that ends the conversation, and
    nothing after it.  Every message has a content, and the roles
    alternate after the greeting. *)
Theorem page_follows_conversation (v : Visit) (visits : list Visit) :
  exists page,
    browse None (v :: visits) = Some page
    /\ session page = run initialize_session_state (submitted (v :: visits))
    /\ transcript page
       = greeting_message
         :: dialogue initialize_session_state (submitted (v :: visits))
    /\ Forall (fun m => chat_content m <> None) (transcript page)
    /\ exists n, n <= List.length (submitted (v :: visits))
                 /\ map chat_role (transcript page)
                    = "assistant" :: List.concat (repeat ["user"; "assistant"] n).
Proof.
  destruct v as [w input].
  pose proof (browse_greeted ((w, input) :: visits)
                {| transcript := [greeting_message];
                   session := initialize_session_state |} eq_refl) as H.
  cbn [transcript session] in H.
  eexists. split; [|split; [|split; [|split]]].
  - cbn [browse fold_left fst snd]. rewrite main_first.
    exact H.
  - reflexivity.
  - reflexivity.
  - cbn [transcript app]. constructor; [discriminate|].
    apply dialogue_replies, initial_well_formed.
  - cbn [transcript app map chat_role greeting_message].
    destruct (dialogue_roles (submitted ((w, input) :: visits))
                             initialize_session_state) as (n & Hn & Hr).
    exists n. split; [exact Hn | now rewrite Hr].
Qed.
End PageTheorem.

(* ================================================================== *)
(** * Further properties: the validators *)

Section Numbers.
Local Open Scope list_scope.





End Numbers.

Section ValidatorTheorems.
Local Open Scope nat_scope.



(** X12.  [validate_email] accepts exactly the strings of 5 to 254
    characters of the form local@domain.tld, possibly followed by one line
    feed, where local is a non-empty run of letters, digits and [._%+-],
    domain a non-empty run of letters, digits, dots and hyphens, and tld
    at least two letters. *)
Theorem email_validation (s : string) :
  validate_email s = true
  <-> 5 <= String.length s <= 254 /\ email_shape (list_ascii_of_string s).
Proof. apply validate_email_shape. Qed.

Lemma email_validation_witness :
  validate_email "a@b.co" = true
  /\ validate_email ("jane.doe+hr@mail.example.org" ++ nl) = true.
Proof.
  split.
  - apply (email_validation "a@b.co"). split; [cbn; lia|].
    exists ["a"%char], ["b"%char], ["c"%char; "o"%char], [].
    repeat split; try reflexivity; try discriminate; cbn; auto.
  - apply (email_validation ("jane.doe+hr@mail.example.org" ++ nl)).
    split; [cbn; lia|].
    exists (list_ascii_of_string "jane.doe+hr"),
           (list_ascii_of_string "mail.example"),
           (list_ascii_of_string "org"), [Re.newline].
    repeat split; try reflexivity; try discriminate; cbn; auto.
Defined.
End ValidatorTheorems.
